(** * phply: the AST node model (phply/phpast.py) and the PHP-to-Jinja2
    transpiler (tools/php2jinja.py), embedded shallowly.

    Python objects are modelled by a small universe of values; the
    exceptions Python raises are an explicit error type; the two module
    globals the transpiler mutates ([called_functions], [loop_var_index])
    are threaded through a state-and-error monad. *)

From Stdlib Require Import String Ascii List ZArith Lia Bool Arith.
From Stdlib Require Import DecimalString.
Import ListNotations.
Open Scope string_scope.
Open Scope nat_scope.
Set Warnings "-register-all".

(** ** Python outcomes *)

Inductive exn :=
| AssertionError | AttributeError | NameError | TypeError | IndexError
| RuntimeError.

(** The result of running a piece of Python: a value, a raised exception,
    or (for the fuel-bounded recursive functions of the model only) the end
    of the recursion budget. *)
Inductive outcome (A : Type) :=
| Ok (a : A)
| Raise (e : exn)
| OutOfFuel.
Arguments Ok {A} a.
Arguments Raise {A} e.
Arguments OutOfFuel {A}.

Definition obind {A B} (m : outcome A) (f : A -> outcome B) : outcome B :=
  match m with
  | Ok a => f a
  | Raise e => Raise e
  | OutOfFuel => OutOfFuel
  end.

(** ** phply/phpast.py *)

Module PhpAst.

(** [node(name, fields)] builds a subclass of [Node] whose only class
    attribute is [fields]; a class is that pair. *)
Record cls := node { cls_name : string; fields : list string }.

Fixpoint names_eqb (l m : list string) : bool :=
  match l, m with
  | [], [] => true
  | x :: l', y :: m' => String.eqb x y && names_eqb l' m'
  | _, _ => false
  end.

Definition cls_eqb (a b : cls) : bool :=
  String.eqb (cls_name a) (cls_name b) && names_eqb (fields a) (fields b).

(** Python values that occur in an AST: scalars, lists, and instances of
    the node classes with their attribute dictionary.  A float is kept as
    the text [repr] prints for it. *)
Inductive value :=
| VNone
| VBool (b : bool)
| VInt (z : Z)
| VFloat (r : string)
| VStr (s : string)
| VList (l : list value)
| VObj (c : cls) (d : list (string * value)).

(** Attribute dictionaries: [setattr] puts the binding in front, lookup
    takes the first binding of the name. *)
Definition setattr (d : list (string * value)) (f : string) (v : value)
  : list (string * value) := (f, v) :: d.

Fixpoint lookup_attr (d : list (string * value)) (f : string) : option value :=
  match d with
  | [] => None
  | (g, v) :: d' => if String.eqb g f then Some v else lookup_attr d' f
  end.

(** [obj.f]: only instance attributes are data; anything else is an
    AttributeError. *)
Definition getattr (v : value) (f : string) : outcome value :=
  match v with
  | VObj _ d =>
      match lookup_attr d f with
      | Some x => Ok x
      | None => Raise AttributeError
      end
  | _ => Raise AttributeError
  end.

(** The loop [for i, field in enumerate(self.fields): setattr(self, field, args[i])]
    of [Node.__init__]; [args[i]] past the end of [args] raises IndexError. *)
Fixpoint bind_fields (fs : list string) (args : list value)
  (d : list (string * value)) : outcome (list (string * value)) :=
  match fs with
  | [] => Ok d
  | f :: fs' =>
      match args with
      | [] => Raise IndexError
      | a :: args' => bind_fields fs' args' (setattr d f a)
      end
  end.

(** [Node.__init__(self, *args, **kwargs)], lines 10-19. [lineno] is the
    keyword argument, [None] when it is not passed. *)
Definition Node_init (c : cls) (args : list value) (lineno : option value)
  : outcome value :=
  if Nat.eqb (length (fields c)) (length args) then
    let d0 := setattr [] "lineno"
                (match lineno with Some l => l | None => VNone end) in
    obind (bind_fields (fields c) args d0) (fun d => Ok (VObj c d))
  else Raise AssertionError.

(** The object a successful construction returns, for use in statements
    about instances; [VNone] stands for the cases where [__init__] raises. *)
Definition new (c : cls) (args : list value) : value :=
  match Node_init c args None with
  | Ok v => v
  | _ => VNone
  end.

(** Lines 54-116. *)
Definition InlineHTML := node "InlineHTML" ["data"].
Definition Block := node "Block" ["nodes"].
Definition Assignment := node "Assignment" ["node"; "expr"; "is_ref"].
Definition ListAssignment := node "ListAssignment" ["nodes"; "expr"].
Definition New := node "New" ["name"; "params"].
Definition Clone := node "Clone" ["node"].
Definition Break := node "Break" ["node"].
Definition Continue := node "Continue" ["node"].
Definition Return := node "Return" ["node"].
Definition Global := node "Global" ["nodes"].
Definition Static := node "Static" ["nodes"].
Definition Echo := node "Echo" ["nodes"].
Definition Print := node "Print" ["node"].
Definition Unset := node "Unset" ["nodes"].
Definition Throw := node "Throw" ["node"].
Definition Function := node "Function" ["name"; "params"; "nodes"; "is_ref"].
Definition Method := node "Method" ["name"; "modifiers"; "params"; "nodes"; "is_ref"].
Definition Class := node "Class" ["name"; "type"; "extends"; "implements"; "nodes"].
Definition ClassConstants := node "ClassConstants" ["nodes"].
Definition ClassConstant := node "ClassConstant" ["name"; "initial"].
Definition ClassVariables := node "ClassVariables" ["modifiers"; "nodes"].
Definition ClassVariable := node "ClassVariable" ["name"; "initial"].
Definition Interface := node "Interface" ["name"; "extends"; "nodes"].
Definition AssignOp := node "AssignOp" ["op"; "left"; "right"].
Definition BinaryOp := node "BinaryOp" ["op"; "left"; "right"].
Definition UnaryOp := node "UnaryOp" ["op"; "expr"].
Definition TernaryOp := node "TernaryOp" ["expr"; "iftrue"; "iffalse"].
Definition PreIncDecOp := node "PreIncDecOp" ["op"; "expr"].
Definition PostIncDecOp := node "PostIncDecOp" ["op"; "expr"].
Definition Cast := node "Cast" ["type"; "expr"].
Definition IsSet := node "IsSet" ["expr"].
Definition Empty := node "Empty" ["expr"].
Definition Eval := node "Eval" ["expr"].
Definition Include := node "Include" ["expr"; "once"].
Definition Require := node "Require" ["expr"; "once"].
Definition Exit := node "Exit" ["expr"].
Definition Silence := node "Silence" ["expr"].
Definition MagicConstant := node "MagicConstant" ["name"; "value"].
Definition Constant := node "Constant" ["name"].
(** [Variable] and [Parameter] are reserved words here, hence the
    underscore. *)
Definition Variable_ := node "Variable" ["name"].
Definition StaticVariable := node "StaticVariable" ["name"; "initial"].
Definition FormalParameter := node "FormalParameter" ["name"; "default"; "is_ref"].
Definition Parameter_ := node "Parameter" ["node"; "is_ref"].
Definition FunctionCall := node "FunctionCall" ["name"; "params"].
Definition Array := node "Array" ["nodes"].
Definition ArrayElement := node "ArrayElement" ["name"; "node"; "is_ref"].
Definition ArrayOffset := node "ArrayOffset" ["node"; "expr"].
Definition StringOffset := node "StringOffset" ["node"; "expr"].
Definition ObjectProperty := node "ObjectProperty" ["node"; "name"].
Definition StaticProperty := node "StaticProperty" ["node"; "name"].
Definition MethodCall := node "MethodCall" ["node"; "name"; "params"].
Definition ScopeResolution := node "ScopeResolution" ["class_"; "node"].
Definition If := node "If" ["expr"; "node"; "elseifs"; "else_"].
Definition ElseIf := node "ElseIf" ["expr"; "node"].
Definition Else := node "Else" ["node"].
Definition While := node "While" ["expr"; "node"].
Definition DoWhile := node "DoWhile" ["node"; "expr"].
Definition For := node "For" ["start"; "test"; "count"; "node"].
Definition ForEach := node "ForEach" ["expr"; "keyvar"; "valvar"; "node"].
Definition ForEachVariable := node "ForEachVariable" ["name"; "is_ref"].
Definition Switch := node "Switch" ["expr"; "nodes"].
Definition Case := node "Case" ["expr"; "nodes"].
Definition Default := node "Default" ["nodes"].

(** Every class the module declares, in declaration order. *)
Definition classes : list cls :=
  [ InlineHTML; Block; Assignment; ListAssignment; New; Clone; Break; Continue;
    Return; Global; Static; Echo; Print; Unset; Throw; Function; Method; Class;
    ClassConstants; ClassConstant; ClassVariables; ClassVariable; Interface;
    AssignOp; BinaryOp; UnaryOp; TernaryOp; PreIncDecOp; PostIncDecOp; Cast;
    IsSet; Empty; Eval; Include; Require; Exit; Silence; MagicConstant;
    Constant; Variable_; StaticVariable; FormalParameter; Parameter_;
    FunctionCall; Array; ArrayElement; ArrayOffset; StringOffset;
    ObjectProperty; StaticProperty; MethodCall; ScopeResolution; If; ElseIf;
    Else; While; DoWhile; For; ForEach; ForEachVariable; Switch; Case; Default ].

(** What [from phply.phpast import *] binds: every class under its own
    name (each assignment of lines 54-116 binds the class to the name it
    passes to [node]).  A name looked up and not found is a NameError. *)
Fixpoint find_class (cs : list cls) (name : string) : option cls :=
  match cs with
  | [] => None
  | c :: cs' => if String.eqb (cls_name c) name then Some c else find_class cs' name
  end.

Definition exports (name : string) : outcome cls :=
  match find_class classes name with
  | Some c => Ok c
  | None => Raise NameError
  end.

End PhpAst.

(** ** The Python built-ins the transpiler uses *)

Module Py.
Import PhpAst.

Definition nl : string := String "010"%char EmptyString.
Definition tab : string := String "009"%char EmptyString.

(** [sep.join(items)]. *)
Fixpoint join (sep : string) (items : list string) : string :=
  match items with
  | [] => ""
  | [x] => x
  | x :: rest => x ++ sep ++ join sep rest
  end.

(** [s * n]. *)
Fixpoint times (s : string) (n : nat) : string :=
  match n with
  | 0 => ""
  | S n' => s ++ times s n'
  end.

(** [str(i)] for an integer. *)
Definition str_int (z : Z) : string := NilZero.string_of_int (Z.to_int z).

Fixpoint contains_char (c : ascii) (s : string) : bool :=
  match s with
  | EmptyString => false
  | String a s' => Ascii.eqb a c || contains_char c s'
  end.

Definition hex_digit (n : nat) : ascii :=
  if n <? 10 then ascii_of_nat (48 + n) else ascii_of_nat (87 + n).

(** Characters are code points below 256; the printable ones (those
    [repr] leaves as they are) are the ASCII graphic characters and space,
    and U+00A1..U+00FF without the soft hyphen. *)
Definition printable (n : nat) : bool :=
  ((32 <=? n) && (n <? 127)) || ((161 <=? n) && negb (n =? 173)).

Definition repr_char (quote : ascii) (c : ascii) : string :=
  let n := nat_of_ascii c in
  if Ascii.eqb c quote || Ascii.eqb c "\"%char then String "\"%char (String c "")
  else if n =? 9 then "\t"
  else if n =? 10 then "\n"
  else if n =? 13 then "\r"
  else if printable n then String c ""
  else "\x" ++ String (hex_digit (n / 16)) (String (hex_digit (n mod 16)) "").

Fixpoint repr_chars (quote : ascii) (s : string) : string :=
  match s with
  | EmptyString => ""
  | String c s' => repr_char quote c ++ repr_chars quote s'
  end.

(** [repr(s)] for a string: single quotes, unless the text has a single
    quote and no double quote. *)
Definition repr_str (s : string) : string :=
  let quote : ascii :=
    if contains_char "'"%char s && negb (contains_char "034"%char s)
    then "034"%char else "'"%char in
  String quote (repr_chars quote s ++ String quote "").

Fixpoint omap {A B} (f : A -> outcome B) (l : list A) : outcome (list B) :=
  match l with
  | [] => Ok []
  | x :: l' => obind (f x) (fun y => obind (omap f l') (fun ys => Ok (y :: ys)))
  end.

(** [repr(v)]. For a node this is [Node.__repr__] (phpast.py lines 21-24),
    which reads every declared field with [getattr]. *)
Fixpoint py_repr (v : value) : outcome string :=
  match v with
  | VNone => Ok "None"
  | VBool b => Ok (if b then "True" else "False")
  | VInt z => Ok (str_int z)
  | VFloat r => Ok r
  | VStr s => Ok (repr_str s)
  | VList l =>
      obind ((fix items (l : list value) : outcome (list string) :=
                match l with
                | [] => Ok []
                | x :: l' =>
                    obind (py_repr x) (fun s =>
                    obind (items l') (fun ss => Ok (s :: ss)))
                end) l)
            (fun ss => Ok ("[" ++ join ", " ss ++ "]"))
  | VObj c d =>
      let reprs :=
        (fix attrs (d : list (string * value)) : list (string * outcome string) :=
           match d with
           | [] => []
           | (k, x) :: d' => (k, py_repr x) :: attrs d'
           end) d in
      let field (f : string) : outcome string :=
        match find (fun kr => String.eqb (fst kr) f) reprs with
        | Some kr => snd kr
        | None => Raise AttributeError
        end in
      obind (omap field (fields c))
            (fun ss => Ok (cls_name c ++ "(" ++ join ", " ss ++ ")"))
  end.

(** [str(v)], also what [%s] formats: the text itself for a string,
    [repr] for everything else ([Node] defines no [__str__]). *)
Definition py_str (v : value) : outcome string :=
  match v with
  | VStr s => Ok s
  | _ => py_repr v
  end.

(** Truth value: [Node] defines neither [__bool__] nor [__len__], so an
    instance is true. *)
Definition truthy (v : value) : bool :=
  match v with
  | VNone => false
  | VBool b => b
  | VInt z => negb (Z.eqb z 0)
  | VFloat r => negb (String.eqb r "0.0" || String.eqb r "-0.0")
  | VStr s => negb (String.eqb s "")
  | VList l => match l with [] => false | _ => true end
  | VObj _ _ => true
  end.

Definition is_none (v : value) : bool :=
  match v with VNone => true | _ => false end.

Fixpoint chars (s : string) : list value :=
  match s with
  | EmptyString => []
  | String c s' => VStr (String c "") :: chars s'
  end.

(** [for x in v] / [iter(v)]. *)
Definition py_iter (v : value) : outcome (list value) :=
  match v with
  | VList l => Ok l
  | VStr s => Ok (chars s)
  | _ => Raise TypeError
  end.

(** [len(v)]. *)
Definition py_len (v : value) : outcome nat :=
  match v with
  | VList l => Ok (List.length l)
  | VStr s => Ok (String.length s)
  | _ => Raise TypeError
  end.

(** [v[0]]. *)
Definition py_first (v : value) : outcome value :=
  match v with
  | VList l => match l with x :: _ => Ok x | [] => Raise IndexError end
  | VStr s => match s with String c _ => Ok (VStr (String c "")) | EmptyString => Raise IndexError end
  | _ => Raise TypeError
  end.

(** [v[1:]]. *)
Definition py_tail (v : value) : outcome value :=
  match v with
  | VList l => Ok (VList (List.tl l))
  | VStr s => Ok (VStr (match s with String _ s' => s' | EmptyString => "" end))
  | _ => Raise TypeError
  end.

Definition lower_char (c : ascii) : ascii :=
  let n := nat_of_ascii c in
  if ((65 <=? n) && (n <=? 90)) || ((192 <=? n) && (n <=? 222) && negb (n =? 215))
  then ascii_of_nat (n + 32) else c.

Fixpoint lower (s : string) : string :=
  match s with
  | EmptyString => ""
  | String c s' => String (lower_char c) (lower s')
  end.

(** [v.lower()]: a method of strings only. *)
Definition py_lower (v : value) : outcome string :=
  match v with
  | VStr s => Ok (lower s)
  | _ => Raise AttributeError
  end.

Definition endswith (s suffix : string) : bool :=
  let n := String.length s in
  let k := String.length suffix in
  (k <=? n) && String.eqb (substring (n - k) k s) suffix.

(** [v.endswith(suffix)]. *)
Definition py_endswith (v : value) (suffix : string) : outcome bool :=
  match v with
  | VStr s => Ok (endswith s suffix)
  | _ => Raise AttributeError
  end.

(** [v == s] for a string literal [s]: [Node.__eq__] answers False for
    anything that is not an instance of the node's class. *)
Definition eq_str (v : value) (s : string) : bool :=
  match v with
  | VStr t => String.eqb t s
  | _ => false
  end.

(** [hash(v)] succeeds: lists are unhashable, and so are nodes, whose
    class defines [__eq__] without [__hash__]. *)
Definition hashable (v : value) : bool :=
  match v with
  | VList _ | VObj _ _ => false
  | _ => true
  end.

(** [table.get(v, v)] for a table with string keys. *)
Definition dict_get (table : list (string * string)) (v : value) : outcome value :=
  if hashable v then
    match v with
    | VStr s =>
        match find (fun kv => String.eqb (fst kv) s) table with
        | Some kv => Ok (VStr (snd kv))
        | None => Ok v
        end
    | _ => Ok v
    end
  else Raise TypeError.

(** [', '.join(items)] where the items are arbitrary values: every item
    has to be a string. *)
Fixpoint as_strings (items : list value) : outcome (list string) :=
  match items with
  | [] => Ok []
  | VStr s :: rest => obind (as_strings rest) (fun ss => Ok (s :: ss))
  | _ :: _ => Raise TypeError
  end.

(** [s.startswith(p)]. *)
Fixpoint startswith (s p : string) {struct p} : bool :=
  match p with
  | EmptyString => true
  | String a p' =>
      match s with
      | EmptyString => false
      | String b s' => Ascii.eqb a b && startswith s' p'
      end
  end.

(** [sub in s]. *)
Fixpoint contains (sub s : string) : bool :=
  startswith s sub
  || match s with
     | EmptyString => false
     | String _ s' => contains sub s'
     end.

(** [s.replace(old, new)]: the occurrences of [old] are found left to
    right and do not overlap. [skip] counts the characters of an occurrence
    still to be passed over. *)
Fixpoint replace_from (old new : string) (skip : nat) (s : string) : string :=
  match s with
  | EmptyString => ""
  | String c s' =>
      match skip with
      | S k => replace_from old new k s'
      | 0 =>
          if startswith s old
          then new ++ replace_from old new (String.length old - 1) s'
          else String c (replace_from old new 0 s')
      end
  end.

Fixpoint intersperse (new : string) (s : string) : string :=
  match s with
  | EmptyString => ""
  | String c s' => String c (new ++ intersperse new s')
  end.

Definition replace (old new s : string) : string :=
  match old with
  | EmptyString => new ++ intersperse new s
  | _ => replace_from old new 0 s
  end.

End Py.

(** ** tools/php2jinja.py *)

Module Php2Jinja.
Import PhpAst Py.

(** The command line, as far as the translation reads it: [args.stubs] (a
    file name or [None]), [args.dry_run], [args.use_line_statements]. *)
Record args := {
  stubs : option string;
  dry_run : bool;
  use_line_statements : bool
}.

(** Lines 26-28: the module globals the translation updates.
    [called_functions] is a dict, kept in insertion order. *)
Record state := {
  called_functions : list (string * list value);
  loop_var_index : Z
}.

Definition initial : state :=
  {| called_functions := []; loop_var_index := 1 |}.

Definition indent_with : string := tab.

(** State and exceptions. *)
Definition M (A : Type) : Type := state -> outcome (A * state).

Definition ret {A} (a : A) : M A := fun st => Ok (a, st).

Definition bind {A B} (m : M A) (f : A -> M B) : M B :=
  fun st =>
    match m st with
    | Ok (a, st') => f a st'
    | Raise e => Raise e
    | OutOfFuel => OutOfFuel
    end.

Definition lift {A} (o : outcome A) : M A :=
  fun st =>
    match o with
    | Ok a => Ok (a, st)
    | Raise e => Raise e
    | OutOfFuel => OutOfFuel
    end.

Notation "x <- m ;; k" := (bind m (fun x => k))
  (at level 61, m at next level, right associativity).

Fixpoint mapM {A B} (f : A -> M B) (l : list A) : M (list B) :=
  match l with
  | [] => ret []
  | x :: l' => y <- f x ;; ys <- mapM f l' ;; ret (y :: ys)
  end.

Fixpoint foldM {A B} (f : B -> A -> M B) (b : B) (l : list A) : M B :=
  match l with
  | [] => ret b
  | x :: l' => b' <- f b x ;; foldM f b' l'
  end.

Definition attr (v : value) (f : string) : M value := lift (getattr v f).

(** Lines 33-36. *)
Definition jstatement (a : args) (items : list string)
  (indent : nat) (inline lstrip rstrip : bool) : string :=
  if negb inline && use_line_statements a then
    nl ++ "# " ++ times indent_with indent ++ join " " items ++ nl
  else
    times indent_with indent ++ "{%" ++ (if lstrip then "-" else "") ++ " "
    ++ join " " items ++ " " ++ (if rstrip then "-" else "") ++ "%}".

(** Lines 38-39. *)
Definition jexpr (body : string) (indent : nat) (lstrip rstrip : bool) : string :=
  times indent_with indent ++ "{{" ++ (if lstrip then "-" else "") ++ " "
  ++ body ++ " " ++ (if rstrip then "-" else "") ++ "}}".

(** Lines 41-42. *)
Definition jcomment (body : string) : string := "{# " ++ body ++ " #}".

(** Lines 44-51. *)
Definition op_map : list (string * string) :=
  [ ("&&", "and"); ("||", "or"); ("!", "not"); ("!==", "!="); ("===", "==");
    (".", "~") ].

(** Lines 55-59. *)
Definition constant_map : list (string * string) :=
  [ ("null", "none"); ("true", "true"); ("false", "false") ].

(** [isinstance(v, (C1, ..., Cn))]: the class names are looked up first,
    among the global names of the module; the node classes have no
    subclasses, so an instance belongs to exactly its own class. *)
Definition isinstance (globals : string -> outcome cls)
  (v : value) (names : list string) : outcome bool :=
  obind (omap globals names) (fun cs =>
    Ok (match v with
        | VObj c _ => existsb (cls_eqb c) cs
        | _ => false
        end)).

(** [isinstance(v, (str, int, float))]; [bool] is a subclass of [int]. *)
Definition is_scalar (v : value) : bool :=
  match v with
  | VStr _ | VInt _ | VBool _ | VFloat _ => true
  | _ => false
  end.

(** [called_functions.setdefault(name, []).append(node)] on the dict. *)
Fixpoint record_call (name : string) (n : value)
  (reg : list (string * list value)) : list (string * list value) :=
  match reg with
  | [] => [(name, [n])]
  | (k, ns) :: reg' =>
      if String.eqb k name then (k, (ns ++ [n])%list) :: reg'
      else (k, ns) :: record_call name n reg'
  end.

(** Line 210. The key has to be hashable; a key that is not a string is
    not kept in the model, since line 212 raises on it and ends the run. *)
Definition record (name node : value) : M unit :=
  fun st =>
    match name with
    | VStr f =>
        Ok (tt, {| called_functions := record_call f node (called_functions st);
                   loop_var_index := loop_var_index st |})
    | _ => if hashable name then Ok (tt, st) else Raise TypeError
    end.

(** Reading [loop_var_index] (line 173) and [loop_var_index += 1]
    (line 174). *)
Definition get_loop_var_index : M Z :=
  fun st => Ok (loop_var_index st, st).

Definition increment_loop_var_index : M unit :=
  fun st => Ok (tt, {| called_functions := called_functions st;
                       loop_var_index := loop_var_index st + 1 |}).

(** [unparse_node] is a sequence of [if isinstance(...)] statements.  The
    block of each returns a text on every path, except the block of
    line 120, which has a path without [return] and then falls through to
    the statements behind it ([None]). *)
Inductive block :=
| Returns (m : M string)
| MayFallThrough (m : M (option string)).

Definition rule : Type := outcome bool * block.

Fixpoint cascade (rules : list rule) (default : M string) : M string :=
  match rules with
  | [] => default
  | (test, blk) :: rules' =>
      b <- lift test ;;
      if b then
        match blk with
        | Returns m => m
        | MayFallThrough m =>
            r <- m ;;
            match r with
            | Some text => ret text
            | None => cascade rules' default
            end
        end
      else cascade rules' default
  end.

Section Program.

(** The class names bound in the module, which line 12 takes from
    [phply.phpast]: a name that is not bound raises NameError where it is
    evaluated.  The program of the repository is the one with
    [PhpAst.exports]. *)
Variable globals : string -> outcome cls.

Section Body.

Variable a : args.

(** The recursive calls [unparse_node(node, is_expr, indent)]. *)
Variable unparse_node : value -> bool -> nat -> M string.

Variables (node : value) (is_expr : bool) (indent : nat).

(** [sep.join(unparse_node(x, e) for x in v)] and its list-comprehension
    forms. *)
Definition unparse_each (v : value) (e : bool) : M (list string) :=
  xs <- lift (py_iter v) ;; mapM (fun x => unparse_node x e 0) xs.

(** The parameter texts of a call: [unparse_node(param.node, True)] for
    each [param] of [node.params]. *)
Definition unparse_params : M (list string) :=
  params <- attr node "params" ;;
  ps <- lift (py_iter params) ;;
  mapM (fun param => p <- attr param "node" ;; unparse_node p true 0) ps.

(** Lines 67-238, one rule per [if] statement. *)
Definition rules : list rule :=
  [ (* 67 *)
    (Ok (is_scalar node), Returns (lift (py_repr node)));
    (* 70 *)
    (isinstance globals node ["InlineHTML"],
     Returns (data <- attr node "data" ;; lift (py_str data)));
    (* 73 *)
    (isinstance globals node ["Constant"],
     Returns (name <- attr node "name" ;;
              key <- lift (py_lower name) ;;
              name' <- attr node "name" ;;
              dflt <- lift (py_str name') ;;
              ret (match find (fun kv => String.eqb (fst kv) key) constant_map with
                   | Some kv => snd kv
                   | None => dflt
                   end)));
    (* 76 *)
    (isinstance globals node ["Variable"],
     Returns (name <- attr node "name" ;;
              bare <- lift (py_tail name) ;;
              lift (py_str bare)));
    (* 79 *)
    (isinstance globals node ["Echo"],
     Returns (nodes <- attr node "nodes" ;;
              texts <- unparse_each nodes true ;;
              ret (jexpr (join "" texts ++ " | safe") 0 false true)));
    (* 83 *)
    (isinstance globals node ["Include"; "Require"],
     Returns (expr <- attr node "expr" ;;
              t <- unparse_node expr true 0 ;;
              ret ("{% include " ++ t ++ " -%}")));
    (* 86 *)
    (isinstance globals node ["Block"],
     Returns (nodes <- attr node "nodes" ;;
              texts <- unparse_each nodes false ;;
              ret (join "" texts)));
    (* 89 *)
    (isinstance globals node ["ArrayOffset"],
     Returns (n <- attr node "node" ;;
              t1 <- unparse_node n true 0 ;;
              e <- attr node "expr" ;;
              t2 <- unparse_node e true 0 ;;
              ret (t1 ++ "[" ++ t2 ++ "]")));
    (* 93 *)
    (isinstance globals node ["ObjectProperty"],
     Returns (n <- attr node "node" ;;
              t <- unparse_node n true 0 ;;
              name <- attr node "name" ;;
              s <- lift (py_str name) ;;
              ret (t ++ "." ++ s)));
    (* 96 *)
    (isinstance globals node ["Array"],
     Returns (nodes <- attr node "nodes" ;;
              elems <- unparse_each nodes true ;;
              nodes' <- attr node "nodes" ;;
              keyed <- (if truthy nodes' then
                          first <- lift (py_first nodes') ;;
                          key <- attr first "key" ;;
                          ret (negb (is_none key))
                        else ret false) ;;
              if keyed then ret ("{" ++ join ", " elems ++ "}")
              else ret ("[" ++ join ", " elems ++ "]")));
    (* 105 *)
    (isinstance globals node ["ArrayElement"],
     Returns (key <- attr node "key" ;;
              if truthy key then
                key' <- attr node "key" ;;
                k <- unparse_node key' true 0 ;;
                value <- attr node "value" ;;
                v <- unparse_node value true 0 ;;
                ret (k ++ ": " ++ v)
              else
                value <- attr node "value" ;;
                unparse_node value true 0));
    (* 112 *)
    (isinstance globals node ["Assignment"],
     Returns (target <- attr node "node" ;;
              offset <- lift (isinstance globals target ["ArrayOffset"]) ;;
              append <- (if offset then
                           e <- attr target "expr" ;; ret (is_none e)
                         else ret false) ;;
              if append then
                container <- attr target "node" ;;
                c <- unparse_node container false 0 ;;
                expr <- attr node "expr" ;;
                x <- unparse_node expr true 0 ;;
                ret ("{% do " ++ c ++ ".append(" ++ x ++ ") -%}")
              else
                lhs <- unparse_node target true 0 ;;
                expr <- attr node "expr" ;;
                rhs <- unparse_node expr true 0 ;;
                ret (jstatement a ["set"; lhs; "="; rhs] 0 false false true)));
    (* 120: no [return] when the operator is not [.=] *)
    (isinstance globals node ["AssignOp"],
     MayFallThrough
       (op <- attr node "op" ;;
        if eq_str op ".=" then
          left <- attr node "left" ;;
          variable <- unparse_node left true 0 ;;
          right <- attr node "right" ;;
          r <- unparse_node right true 0 ;;
          ret (Some ("{% set " ++ variable ++ " = " ++ variable ++ " ~ " ++ r
                     ++ " -%}"))
        else ret None));
    (* 126 *)
    (isinstance globals node ["UnaryOp"],
     Returns (op <- attr node "op" ;;
              op' <- lift (dict_get op_map op) ;;
              expr <- attr node "expr" ;;
              t <- unparse_node expr true 0 ;;
              o <- lift (py_str op') ;;
              ret ("(" ++ o ++ " " ++ t ++ ")")));
    (* 130 *)
    (isinstance globals node ["BinaryOp"],
     Returns (op <- attr node "op" ;;
              op' <- lift (dict_get op_map op) ;;
              left <- attr node "left" ;;
              l <- unparse_node left true 0 ;;
              right <- attr node "right" ;;
              r <- unparse_node right true 0 ;;
              o <- lift (py_str op') ;;
              ret ("(" ++ l ++ " " ++ o ++ " " ++ r ++ ")")));
    (* 135 *)
    (isinstance globals node ["TernaryOp"],
     Returns (iftrue <- attr node "iftrue" ;;
              t <- unparse_node iftrue true 0 ;;
              expr <- attr node "expr" ;;
              c <- unparse_node expr true 0 ;;
              iffalse <- attr node "iffalse" ;;
              f <- unparse_node iffalse true 0 ;;
              ret ("(" ++ t ++ " if " ++ c ++ " else " ++ f ++ ")")));
    (* 140 *)
    (isinstance globals node ["IsSet"],
     Returns (nodes <- attr node "nodes" ;;
              n <- lift (py_len nodes) ;;
              if n =? 1 then
                nodes' <- attr node "nodes" ;;
                first <- lift (py_first nodes') ;;
                t <- unparse_node first true 0 ;;
                ret ("(" ++ t ++ " is defined)")
              else
                nodes' <- attr node "nodes" ;;
                texts <- unparse_each nodes' true ;;
                ret ("(" ++ join " and "
                              (map (fun t => "(" ++ t ++ " is defined)") texts)
                         ++ ")")));
    (* 148 *)
    (isinstance globals node ["Empty"],
     Returns (expr <- attr node "expr" ;;
              t <- unparse_node expr true 0 ;;
              ret ("(not " ++ t ++ ")")));
    (* 151 *)
    (isinstance globals node ["Silence"],
     Returns (expr <- attr node "expr" ;; unparse_node expr true 0));
    (* 154 *)
    (isinstance globals node ["Cast"],
     Returns (type <- attr node "type" ;;
              filter <- (if eq_str type "int" || eq_str type "float"
                            || eq_str type "string"
                         then
                           type' <- attr node "type" ;;
                           s <- lift (py_str type') ;; ret ("|" ++ s)
                         else ret "") ;;
              expr <- attr node "expr" ;;
              t <- unparse_node expr true 0 ;;
              ret (t ++ filter)));
    (* 160 *)
    (isinstance globals node ["If"],
     Returns (then_ <- attr node "node" ;;
              body <- unparse_node then_ false 0 ;;
              elseifs <- attr node "elseifs" ;;
              branches <- lift (py_iter elseifs) ;;
              body <- foldM (fun body elseif =>
                               expr <- attr elseif "expr" ;;
                               c <- unparse_node expr true 0 ;;
                               n <- attr elseif "node" ;;
                               t <- unparse_node n false (indent + 1) ;;
                               ret (body ++ nl ++ "{% elif " ++ c ++ " -%}" ++ nl
                                    ++ times indent_with (indent + 1) ++ t))
                            body branches ;;
              else_ <- attr node "else_" ;;
              body <- (if truthy else_ then
                         else' <- attr node "else_" ;;
                         n <- attr else' "node" ;;
                         t <- unparse_node n false (indent + 1) ;;
                         ret (body ++ nl ++ "{% else -%}" ++ nl ++ t)
                       else ret body) ;;
              expr <- attr node "expr" ;;
              c <- unparse_node expr true 0 ;;
              ret ("{% if " ++ c ++ " -%}" ++ nl ++ times indent_with (indent + 1)
                   ++ body ++ nl ++ "{% endif -%}")));
    (* 171 *)
    (isinstance globals node ["While"],
     Returns (Foreach <- lift (globals "Foreach") ;;
              expr <- attr node "expr" ;;
              ForeachVariable <- lift (globals "ForeachVariable") ;;
              index <- get_loop_var_index ;;
              var <- lift (Node_init ForeachVariable
                             [VStr ("$loop_var_" ++ str_int index); VBool false]
                             None) ;;
              n <- attr node "node" ;;
              dummy <- lift (Node_init Foreach [expr; VNone; var; n] None) ;;
              _ <- increment_loop_var_index ;;
              unparse_node dummy false 0));
    (* 177 *)
    (isinstance globals node ["Foreach"],
     Returns (valvar <- attr node "valvar" ;;
              name <- attr valvar "name" ;;
              is_var <- lift (isinstance globals name ["Variable"]) ;;
              name <- (if is_var then attr name "name" else ret name) ;;
              var <- lift (py_tail name) ;;
              keyvar <- attr node "keyvar" ;;
              var <- (if truthy keyvar then
                        keyvar' <- attr node "keyvar" ;;
                        kname <- attr keyvar' "name" ;;
                        kbare <- lift (py_tail kname) ;;
                        k <- lift (py_str kbare) ;;
                        v <- lift (py_str var) ;;
                        ret (VStr (k ++ ", " ++ v))
                      else ret var) ;;
              expr <- attr node "expr" ;;
              e <- unparse_node expr true 0 ;;
              n <- attr node "node" ;;
              body <- unparse_node n false 0 ;;
              v <- lift (py_str var) ;;
              ret ("{% for " ++ v ++ " in " ++ e ++ " -%}" ++ body ++ "{% endfor -%}")));
    (* 188 *)
    (isinstance globals node ["Function"],
     Returns (name <- attr node "name" ;;
              params <- attr node "params" ;;
              ps <- lift (py_iter params) ;;
              names <- mapM (fun param =>
                               pname <- attr param "name" ;; lift (py_tail pname))
                            ps ;;
              names <- lift (as_strings names) ;;
              nodes <- attr node "nodes" ;;
              texts <- unparse_each nodes false ;;
              n <- lift (py_str name) ;;
              ret ("{% macro " ++ n ++ "(" ++ join ", " names ++ ") -%}" ++ nl
                   ++ "    " ++ join (nl ++ "    ") texts ++ nl
                   ++ "{%- endmacro -%}" ++ nl ++ nl)));
    (* 202 *)
    (isinstance globals node ["Return"],
     Returns (s <- lift (py_str node) ;; ret (jcomment s)));
    (* 207 *)
    (isinstance globals node ["FunctionCall"],
     Returns (name <- attr node "name" ;;
              _ <- record name node ;;
              params <- unparse_params ;;
              name' <- attr node "name" ;;
              printf <- lift (py_endswith name' "printf") ;;
              body <- (if printf then
                         match params with
                         | fmt :: rest => ret (fmt ++ " % (" ++ join ", " rest ++ ",)")
                         | [] => lift (Raise IndexError)
                         end
                       else
                         _ <- lift (isinstance globals node ["StaticMethodCall"]) ;;
                         n <- lift (py_str name') ;;
                         ret (n ++ "(" ++ join ", " params ++ ")")) ;;
              ret (if is_expr then body else jexpr body 0 false true)));
    (* 223 *)
    (isinstance globals node ["MethodCall"],
     Returns (params <- unparse_params ;;
              n <- attr node "node" ;;
              t <- unparse_node n true 0 ;;
              name <- attr node "name" ;;
              s <- lift (py_str name) ;;
              let body := t ++ "." ++ s ++ "(" ++ join ", " params ++ ")" in
              ret (if is_expr then body else jexpr body 0 false true)));
    (* 229 *)
    (isinstance globals node ["StaticMethodCall"],
     Returns (params <- unparse_params ;;
              class_ <- attr node "class_" ;;
              c <- lift (py_str class_) ;;
              name <- attr node "name" ;;
              s <- lift (py_str name) ;;
              let body := c ++ "." ++ s ++ "(" ++ join ", " params ++ ")" in
              ret (if is_expr then body else jexpr body 0 false true)));
    (* 235 *)
    (isinstance globals node ["New"],
     Returns (FunctionCall <- lift (globals "FunctionCall") ;;
              name <- attr node "name" ;;
              params <- attr node "params" ;;
              lineno <- attr node "lineno" ;;
              dummy <- lift (Node_init FunctionCall [name; params] (Some lineno)) ;;
              unparse_node dummy is_expr 0))
  ].

(** Lines 240-243. *)
Definition default : M string :=
  s <- lift (py_str node) ;;
  if is_expr then ret ("XXX(" ++ repr_str s ++ ")")
  else ret ("{# XXX " ++ s ++ " #}").

Definition unparse_node_body : M string := cascade rules default.

End Body.

(** Lines 64-243. The recursion is bounded by [fuel]. *)
Fixpoint unparse_node (a : args) (fuel : nat) (node : value) (is_expr : bool)
  (indent : nat) {struct fuel} : M string :=
  match fuel with
  | 0 => fun _ => OutOfFuel
  | S fuel' => unparse_node_body a (unparse_node a fuel') node is_expr indent
  end.

(** Lines 61-62, [unparse(nodes)] with the default separator. *)
Definition unparse (a : args) (fuel : nat) (nodes : value) : M string :=
  xs <- lift (py_iter nodes) ;;
  texts <- mapM (fun x => unparse_node a fuel x false 0) xs ;;
  ret (join nl texts).

(** *** Lines 254-264: the stubs file *)

(** [sorted(nodes, key=lambda n: len(n.params))]: the keys are computed
    first, then the list is sorted stably. *)
Fixpoint insert_sorted (k : nat) (x : value) (l : list (nat * value))
  : list (nat * value) :=
  match l with
  | [] => [(k, x)]
  | (k', y) :: l' =>
      if k' <? k then (k', y) :: insert_sorted k x l' else (k, x) :: l
  end.

Definition arity (n : value) : outcome nat :=
  obind (getattr n "params") py_len.

Definition sorted_by_arity (nodes : list value) : outcome (list value) :=
  obind (omap (fun n => obind (arity n) (fun k => Ok (k, n))) nodes)
        (fun keyed =>
           Ok (map snd (fold_right (fun kx acc => insert_sorted (fst kx) (snd kx) acc)
                          [] keyed))).

(** [nodes[-1]]. *)
Definition py_last (l : list value) : outcome value :=
  match rev l with
  | x :: _ => Ok x
  | [] => Raise IndexError
  end.

(** [['arg'+str(i) for i, n in enumerate(params)]]. *)
Definition placeholders (n : nat) : list string :=
  map (fun i => "arg" ++ str_int (Z.of_nat i)) (seq 0 n).

Section Stubs.

Variable a : args.

(** The order in which a [set] of strings built from the given list is
    iterated.  Python fixes it by the strings' hashes, which differ from
    one process to the next; it is a parameter of the run. *)
Variable set_order : list string -> list string.

Variable fuel : nat.

(** The body of the loop of line 257 for one entry of the dict: the text
    written for it. *)
Definition stub (name : string) (nodes : list value) : M string :=
  nodes <- lift (sorted_by_arity nodes) ;;
  longest_arity <- lift (py_last nodes) ;;
  params <- attr longest_arity "params" ;;
  ps <- lift (py_iter params) ;;
  let header := "def " ++ name ++ "(" ++ join ", " (placeholders (List.length ps))
                ++ "):" ++ nl in
  params' <- attr longest_arity "params" ;;
  n <- lift (py_len params') ;;
  examples <- (if 0 <? n then
                 texts <- mapM (fun n => unparse_node a fuel n true 0) nodes ;;
                 ret (firstn 3 (set_order texts))
               else ret []) ;;
  ret (header
       ++ join "" (map (fun example => "    # " ++ example ++ nl) examples)
       ++ "    pass" ++ nl ++ nl).

(** [for name, nodes in called_functions.items()]: the entries are read
    from the dict as it is when the iterator reaches them, and the iterator
    raises RuntimeError when the dict has changed size. [size] is the size
    at the start of the loop and [todo] the number of entries left. *)
Fixpoint stub_entries (size todo : nat) : M string :=
  fun st =>
    if negb (List.length (called_functions st) =? size) then Raise RuntimeError
    else
      match todo with
      | 0 => Ok ("", st)
      | S todo' =>
          match nth_error (called_functions st) (size - todo) with
          | None => Raise RuntimeError
          | Some (name, nodes) =>
              (text <- stub name nodes ;;
               rest <- stub_entries size todo' ;;
               ret (text ++ rest)) st
          end
      end.

Definition stubs_text : M string :=
  fun st =>
    let size := List.length (called_functions st) in
    (text <- stub_entries size size ;;
     ret ("# stubs for observed function calls" ++ nl ++ text)) st.

End Stubs.

(** Line 267. *)
Definition collapse_blank_lines (jinja : string) : string :=
  replace (nl ++ nl) nl jinja.

(** What a run leaves behind: the text written to the output and the text
    of the stubs file, each absent when it is not written. *)
Record written := {
  template : option string;
  stubs_file : option string
}.

Definition wants_stubs (a : args) : bool :=
  match stubs a with
  | Some file => negb (String.eqb file "")
  | None => false
  end.

(** Lines 253-268, from the parsed [ast] on.  The globals start from
    their values of lines 26-28. *)
Definition run (a : args) (set_order : list string -> list string)
  (fuel : nat) (ast : value) : outcome written :=
  obind (unparse a fuel ast initial) (fun '(jinja, st) =>
  obind (if wants_stubs a
            && match called_functions st with [] => false | _ => true end
         then obind (stubs_text a set_order fuel st)
                    (fun '(text, _) => Ok (Some text))
         else Ok None) (fun stubs_file =>
  Ok {| template :=
          if negb (dry_run a) then Some (collapse_blank_lines jinja) else None;
        stubs_file := stubs_file |})).

End Program.

End Php2Jinja.

(** ** Definitions used in the statements *)

Import PhpAst Py Php2Jinja.

(** A list of field names without repetition. *)
Fixpoint nodupb (l : list string) : bool :=
  match l with
  | [] => true
  | x :: l' => negb (existsb (String.eqb x) l') && nodupb l'
  end.

(** The configuration with no option given. *)
Definition no_options : args :=
  {| stubs := None; dry_run := false; use_line_statements := false |}.

(** The classes whose instances reach line 171 or line 177 of
    [unparse_node]: every class of phpast.py but the twenty-one tested
    before [While]. *)
Definition reaching_Foreach : list cls :=
  [ ListAssignment; New; Clone; Break; Continue; Return; Global; Static;
    Print; Unset; Throw; Function; Method; Class; ClassConstants;
    ClassConstant; ClassVariables; ClassVariable; Interface; PreIncDecOp;
    PostIncDecOp; Eval; Exit; MagicConstant; StaticVariable; FormalParameter;
    Parameter_; FunctionCall; StringOffset; StaticProperty; MethodCall;
    ScopeResolution; ElseIf; Else; While; DoWhile; For; ForEach;
    ForEachVariable; Switch; Case; Default ].

(** The parsed form of [f(1); f(1, 2, 3); f(1, 2);]. *)
Definition call (name : string) (params : list value) : value :=
  new FunctionCall
    [VStr name; VList (map (fun p => new Parameter_ [p; VBool false]) params)].

Definition three_calls : value :=
  VList [call "f" [VInt 1]; call "f" [VInt 1; VInt 2; VInt 3];
         call "f" [VInt 1; VInt 2]].

(** Classes for the three names php2jinja.py uses and phpast.py does not
    declare, with the fields [unparse_node] passes and reads (lines 173,
    178-186 and 232). *)
Definition Foreach := node "Foreach" ["expr"; "keyvar"; "valvar"; "node"].
Definition ForeachVariable := node "ForeachVariable" ["name"; "is_ref"].
Definition StaticMethodCall := node "StaticMethodCall" ["class_"; "name"; "params"].

(** The class names as php2jinja.py spells them: the names of phpast.py
    together with these three.  This is not the program of the repository;
    it serves to tell what the code attempts at the places where the
    repository's program raises NameError. *)
Definition names_as_used (name : string) : outcome cls :=
  if String.eqb name "Foreach" then Ok Foreach
  else if String.eqb name "ForeachVariable" then Ok ForeachVariable
  else if String.eqb name "StaticMethodCall" then Ok StaticMethodCall
  else exports name.

(** The globals after [loop_var_index += 1]. *)
Definition next_index (st : state) : state :=
  {| called_functions := called_functions st;
     loop_var_index := (loop_var_index st + 1)%Z |}.

(** Two orders in which a set of strings may be iterated: first
    occurrences in the order of insertion, and the reverse. *)
Fixpoint distinct (texts : list string) : list string :=
  match texts with
  | [] => []
  | t :: rest =>
      t :: filter (fun u => negb (String.eqb u t)) (distinct rest)
  end.

Definition distinct_reversed (texts : list string) : list string :=
  rev (distinct texts).

Definition stubs_requested : args :=
  {| stubs := Some "stubs.py"; dry_run := false; use_line_statements := false |}.

(** A computation that, when it returns, leaves the module globals as it
    found them. *)
Definition keeps_state {A} (m : M A) : Prop :=
  forall st x st', m st = Ok (x, st') -> st' = st.

(** ** The other methods of [Node] (phpast.py lines 26-48) *)

Module NodeMethods.

(** An attribute dictionary with a function applied to every value; the
    attribute [f] of the instance is then looked up by [entry]. *)
Definition on_attrs {A} (g : value -> A) (d : list (string * value))
  : list (string * A) :=
  map (fun kx : string * value => let (k, x) := kx in (k, g x)) d.

Definition entry {A} (d : list (string * A)) (f : string) : option A :=
  match find (fun kx : string * A => String.eqb (fst kx) f) d with
  | Some kx => Some (snd kx)
  | None => None
  end.

Section Equality.

(** [x == y] where [x] is a float, given by the text [repr] prints for
    it, and [y] a number: the arithmetic of floats is not part of the
    model. *)
Variable float_eq : string -> value -> bool.

Definition number (b : bool) : Z := if b then 1%Z else 0%Z.

Section Node_eq.

(** [==] on the values of the fields. *)
Variable eq : value -> value -> outcome bool.

(** The items of two lists of the same length, compared in order up to
    the first pair that differs. *)
Fixpoint items_eq (l l' : list value) {struct l} : outcome bool :=
  match l, l' with
  | i :: l1, j :: l1' =>
      obind (eq i j) (fun same => if same then items_eq l1 l1' else Ok false)
  | _, _ => Ok true
  end.

(** The loop of lines 29-31: [self.f == other.f] for each field [f] of
    [self]'s class, up to the first that differs. [same] holds the
    comparisons with the attributes of [self]. *)
Fixpoint each_field (same : list (string * (value -> outcome bool)))
  (other : value) (fs : list string) : outcome bool :=
  match fs with
  | [] => Ok true
  | f :: fs' =>
      match entry same f with
      | None => Raise AttributeError
      | Some same_as =>
          obind (getattr other f) (fun y =>
          obind (same_as y) (fun equal =>
          if equal then each_field same other fs' else Ok false))
      end
  end.

End Node_eq.

(** [x == y]. For a node on the left this is [Node.__eq__], lines 26-32;
    a node on the right of a value that is not a node is asked in turn
    and answers False.  List items are compared with [==] in order
    (CPython tries identity first, which the model, having no object
    identity, leaves out). *)
Fixpoint py_eq (x y : value) {struct x} : outcome bool :=
  match x with
  | VNone => Ok (is_none y)
  | VBool b =>
      match y with
      | VBool b' => Ok (Z.eqb (number b) (number b'))
      | VInt z => Ok (Z.eqb (number b) z)
      | VFloat r => Ok (float_eq r x)
      | _ => Ok false
      end
  | VInt z =>
      match y with
      | VBool b' => Ok (Z.eqb z (number b'))
      | VInt z' => Ok (Z.eqb z z')
      | VFloat r => Ok (float_eq r x)
      | _ => Ok false
      end
  | VFloat r =>
      match y with
      | VBool _ | VInt _ | VFloat _ => Ok (float_eq r y)
      | _ => Ok false
      end
  | VStr s =>
      match y with
      | VStr t => Ok (String.eqb s t)
      | _ => Ok false
      end
  | VList l =>
      match y with
      | VList l' =>
          if List.length l =? List.length l' then items_eq py_eq l l'
          else Ok false
      | _ => Ok false
      end
  | VObj c d =>
      match y with
      | VObj c' _ =>
          if cls_eqb c' c then each_field (on_attrs py_eq d) y (fields c)
          else Ok false
      | _ => Ok false
      end
  end.

End Equality.

(** What [generic] returns: the pair [(class name, values)] for a node,
    the list built at lines 41-46 for a list, and any other value as it
    is. *)
Inductive generic_form :=
| Plain (v : value)
| Items (l : list generic_form)
| Generic (name : string) (values : list (string * generic_form)).

(** [values[field] = value] on a dict kept in insertion order. *)
Fixpoint dict_set {A} (d : list (string * A)) (k : string) (x : A)
  : list (string * A) :=
  match d with
  | [] => [(k, x)]
  | (k', y) :: d' =>
      if String.eqb k' k then (k', x) :: d' else (k', y) :: dict_set d' k x
  end.

Section Generic.

(** The method [generic] of a node. *)
Variable generic : value -> outcome generic_form.

(** Lines 38-46 for one field value: only nodes have the method, which
    is what [hasattr(value, 'generic')] tests, and the items of a list are
    converted one level deep. *)
Definition convert (x : value) : outcome generic_form :=
  match x with
  | VObj _ _ => generic x
  | VList l =>
      obind (omap (fun i => match i with
                            | VObj _ _ => generic i
                            | _ => Ok (Plain i)
                            end) l)
            (fun gs => Ok (Items gs))
  | _ => Ok (Plain x)
  end.

(** The loop of lines 36-47. [converted] holds the converted attributes
    of [self], [values] the dict filled so far. *)
Fixpoint fill (converted : list (string * outcome generic_form))
  (fs : list string) (values : list (string * generic_form))
  : outcome (list (string * generic_form)) :=
  match fs with
  | [] => Ok values
  | f :: fs' =>
      match entry converted f with
      | None => Raise AttributeError
      | Some value => obind value (fun g => fill converted fs' (dict_set values f g))
      end
  end.

End Generic.

(** [Node.generic], lines 34-48. *)
Fixpoint generic (v : value) : outcome generic_form :=
  match v with
  | VObj c d =>
      obind (fill (on_attrs (convert generic) d) (fields c) [])
            (fun values => Ok (Generic (cls_name c) values))
  | _ => Raise AttributeError
  end.

End NodeMethods.

(** ** Measures and predicates used in the statements *)

Import NodeMethods.

(** The nesting depth of a value: scalars and [None] have depth 0. *)
Fixpoint depth (v : value) : nat :=
  match v with
  | VList l =>
      S ((fix items (l : list value) : nat :=
            match l with
            | [] => 0
            | x :: l' => Nat.max (depth x) (items l')
            end) l)
  | VObj _ d =>
      S ((fix attrs (d : list (string * value)) : nat :=
            match d with
            | [] => 0
            | (_, x) :: d' => Nat.max (depth x) (attrs d')
            end) d)
  | _ => 0
  end.

Definition depth_items (l : list value) : nat :=
  fold_right (fun x n => Nat.max (depth x) n) 0 l.

Definition depth_attrs (d : list (string * value)) : nat :=
  fold_right (fun kx n => Nat.max (depth (snd kx)) n) 0 d.






(** A computation that does not end for want of budget. *)
Definition finishes {A} (m : M A) : Prop := forall st, m st <> OutOfFuel.

(** [m'] gives what [m] gives wherever [m] does not run out of budget. *)
Definition extends {A} (m m' : M A) : Prop :=
  forall st, m st <> OutOfFuel -> m' st = m st.




(** The calls recorded under a name, [called_functions.get(name, [])]. *)
Definition calls_of (reg : list (string * list value)) (name : string)
  : list value :=
  match find (fun kv => String.eqb (fst kv) name) reg with
  | Some kv => snd kv
  | None => []
  end.

(** The text lines 260-264 write for a function of the given name, number
    of parameters and example comments. *)
Definition stub_text (name : string) (parameters : nat) (examples : list string)
  : string :=
  ("def " ++ name ++ "(" ++ join ", " (placeholders parameters) ++ "):" ++ nl)
  ++ join "" (map (fun example => "    # " ++ example ++ nl) examples)
  ++ "    pass" ++ nl ++ nl.

(** Two computations that give the same result from every state. *)
Definition same_result {A} (m m' : M A) : Prop := forall st, m st = m' st.

(** A list of calls with their numbers of arguments, in ascending order of
    these. *)
Definition by_key (p q : nat * value) : Prop := fst p <= fst q.

Fixpoint ascending (l : list (nat * value)) : Prop :=
  match l with
  | [] => True
  | p :: l' => Forall (by_key p) l' /\ ascending l'
  end.



(** * Properties *)

(** ** The node model *)

Lemma names_eqb_eq (l m : list string) : names_eqb l m = true <-> l = m.
Proof.
  revert m; induction l as [|x l IH]; intros [|y m]; simpl;
    try (split; [discriminate | congruence]); try tauto.
  rewrite andb_true_iff, String.eqb_eq, IH.
  split; [intros [-> ->]; reflexivity | intros H; inversion H; auto].
Qed.

Lemma cls_eqb_eq (c c' : cls) : cls_eqb c c' = true <-> c = c'.
Proof.
  destruct c as [n f], c' as [n' f']; unfold cls_eqb; simpl.
  rewrite andb_true_iff, String.eqb_eq, names_eqb_eq.
  split; [intros [-> ->]; reflexivity | intros H; inversion H; auto].
Qed.

(** A binding that [__init__]'s loop does not touch survives it. *)
Lemma bind_fields_keeps (fs : list string) :
  forall args d d' f v,
    bind_fields fs args d = Ok d' ->
    ~ In f fs ->
    lookup_attr d f = Some v ->
    lookup_attr d' f = Some v.
Proof.
  induction fs as [|g fs IH]; intros args d d' f v Hb Hn Hl; simpl in Hb.
  - inversion Hb; subst; exact Hl.
  - destruct args as [|x args]; [discriminate|].
    apply (IH _ _ _ f v Hb).
    + intros Hin; apply Hn; right; exact Hin.
    + unfold setattr; simpl.
      destruct (String.eqb g f) eqn:E; [|exact Hl].
      apply String.eqb_eq in E; subst g. exfalso; apply Hn; left; reflexivity.
Qed.

(** After the loop, the i-th field is bound to the i-th argument. *)
Lemma bind_fields_binds (fs : list string) :
  forall args d d' i f v,
    NoDup fs ->
    bind_fields fs args d = Ok d' ->
    nth_error fs i = Some f ->
    nth_error args i = Some v ->
    lookup_attr d' f = Some v.
Proof.
  induction fs as [|g fs IH]; intros args d d' i f v Hnd Hb Hf Hv.
  - destruct i; discriminate.
  - simpl in Hb. destruct args as [|x args]; [discriminate|].
    inversion Hnd as [|? ? Hnotin Hnd']; subst.
    destruct i as [|i]; simpl in Hf, Hv.
    + inversion Hf; inversion Hv; subst.
      apply (bind_fields_keeps fs args _ d' f v Hb Hnotin).
      unfold setattr; simpl. rewrite String.eqb_refl. reflexivity.
    + exact (IH args _ d' i f v Hnd' Hb Hf Hv).
Qed.

Lemma bind_fields_total (fs : list string) :
  forall args d, length fs = length args -> exists d', bind_fields fs args d = Ok d'.
Proof.
  induction fs as [|g fs IH]; intros [|x args] d Hlen; simpl in *;
    try discriminate; eauto.
Qed.

Lemma nodupb_NoDup (l : list string) : nodupb l = true -> NoDup l.
Proof.
  induction l as [|x l IH]; simpl; intros H; constructor;
    apply andb_true_iff in H; destruct H as [Hx Hl]; auto.
  intros Hin. apply negb_true_iff in Hx.
  assert (existsb (String.eqb x) l = true) as E; [|congruence].
  apply existsb_exists. exists x. split; [exact Hin | apply String.eqb_refl].
Qed.

(** No class of phpast.py declares a field twice. *)
Lemma classes_fields_NoDup (c : cls) : In c classes -> NoDup (fields c).
Proof.
  intros Hin. apply nodupb_NoDup.
  assert (forallb (fun c => nodupb (fields c)) classes = true) as H
    by (vm_compute; reflexivity).
  rewrite forallb_forall in H. exact (H c Hin).
Qed.

(** C8. For every class declared in phpast.py, [Node.__init__] fails its
    assertion (AssertionError) when the number of positional arguments
    differs from the number of declared fields, and otherwise returns an
    instance on which every declared field is an attribute bound to the
    positional argument at the same index. *)
Theorem Node_init_arity (c : cls) (args : list value) (lineno : option value) :
  In c classes ->
  (length args <> length (fields c) ->
   Node_init c args lineno = Raise AssertionError)
  /\ (length args = length (fields c) ->
      exists obj,
        Node_init c args lineno = Ok obj
        /\ forall i f, nth_error (fields c) i = Some f ->
             exists v, nth_error args i = Some v /\ getattr obj f = Ok v).
Proof.
  intros Hin. unfold Node_init. split; intros Hlen.
  - destruct (Nat.eqb_spec (length (fields c)) (length args)) as [E|E];
      [congruence | reflexivity].
  - rewrite Hlen, Nat.eqb_refl.
    destruct (bind_fields_total (fields c) args
                (setattr [] "lineno" match lineno with Some l => l | None => VNone end)
                (eq_sym Hlen)) as [d Hd].
    rewrite Hd. simpl. eexists; split; [reflexivity|].
    intros i f Hf.
    destruct (nth_error args i) as [v|] eqn:Hv.
    + exists v; split; [reflexivity|]. simpl.
      rewrite (bind_fields_binds _ _ _ _ i f v (classes_fields_NoDup c Hin) Hd Hf Hv).
      reflexivity.
    + apply nth_error_None in Hv.
      assert (i < length (fields c)) by (apply nth_error_Some; congruence). lia.
Qed.

Lemma Node_init_arity_witness :
  Node_init Variable_ [VStr "$x"; VInt 1] None = Raise AssertionError
  /\ exists obj,
       Node_init Variable_ [VStr "$x"] None = Ok obj
       /\ exists v, nth_error [VStr "$x"] 0 = Some v /\ getattr obj "name" = Ok v.
Proof.
  assert (In Variable_ classes) as Hin by (unfold classes; simpl; tauto).
  split.
  - apply (Node_init_arity Variable_ [VStr "$x"; VInt 1] None Hin).
    simpl; lia.
  - destruct (Node_init_arity Variable_ [VStr "$x"] None Hin) as [_ H].
    destruct (H eq_refl) as [obj [Hobj Hattrs]].
    exists obj. split; [exact Hobj|].
    apply (Hattrs 0 "name"). reflexivity.
Defined.

(** ** The names php2jinja.py uses *)

(** Every class of phpast.py is bound under its own name. *)
Lemma exports_declared (c : cls) : In c classes -> exports (cls_name c) = Ok c.
Proof.
  unfold classes. simpl.
  repeat (intros [<- | H]; [reflexivity | revert H]).
  intros [].
Qed.

(** Three class names that [unparse_node] mentions are not bound by
    [from phply.phpast import *]: lines 173 and 177 say [Foreach] and
    [ForeachVariable] where phpast.py declares [ForEach] and
    [ForEachVariable] (lines 112-113), and phpast.py has no
    [StaticMethodCall] (lines 215 and 229). *)
Lemma exports_unbound :
  exports "Foreach" = Raise NameError
  /\ exports "ForeachVariable" = Raise NameError
  /\ exports "StaticMethodCall" = Raise NameError.
Proof. repeat split. Qed.

(** The other class names it mentions are bound. *)
Lemma exports_bound :
  Forall (fun name => exists c, exports name = Ok c /\ cls_name c = name)
    [ "InlineHTML"; "Constant"; "Variable"; "Echo"; "Include"; "Require";
      "Block"; "ArrayOffset"; "ObjectProperty"; "Array"; "ArrayElement";
      "Assignment"; "AssignOp"; "UnaryOp"; "BinaryOp"; "TernaryOp"; "IsSet";
      "Empty"; "Silence"; "Cast"; "If"; "While"; "Function"; "Return";
      "FunctionCall"; "MethodCall"; "New" ].
Proof. repeat (constructor; [eexists; split; reflexivity|]). constructor. Qed.

(** No class of phpast.py has an attribute [key], [value] or [nodes]
    besides those that declare it: an ArrayElement has none of the first
    two and an IsSet not the third. *)
Lemma undeclared_attributes (key val is_ref expr : value) :
  getattr (new ArrayElement [key; val; is_ref]) "key" = Raise AttributeError
  /\ getattr (new ArrayElement [key; val; is_ref]) "value" = Raise AttributeError
  /\ getattr (new IsSet [expr]) "nodes" = Raise AttributeError.
Proof. repeat split. Qed.

(** ** The translation *)

Lemma append_assoc (s t u : string) : (s ++ t) ++ u = s ++ t ++ u.
Proof. induction s as [|c s IH]; simpl; [reflexivity | now rewrite IH]. Qed.

(** One step of [unparse_node], with the recursive calls kept folded. *)
Lemma unparse_node_step (globals : string -> outcome cls) (a : args)
  (fuel : nat) (node : value) (is_expr : bool) (indent : nat) :
  unparse_node globals a (S fuel) node is_expr indent
  = unparse_node_body globals a (unparse_node globals a fuel) node is_expr indent.
Proof. reflexivity. Qed.

(** C10. An Array node whose [nodes] attribute is the empty list is
    translated to [[]], in either position: the loop of line 98 has nothing
    to translate, and the test [node.nodes and ...] of line 100 stops at the
    empty list without reading a first element. *)
Theorem empty_array_literal (a : args) (fuel : nat) (is_expr : bool)
  (indent : nat) (st : state) (d : list (string * value)) :
  lookup_attr d "nodes" = Some (VList []) ->
  unparse_node exports a (S fuel) (VObj Array d) is_expr indent st = Ok ("[]", st).
Proof.
  intros Hnodes. rewrite unparse_node_step.
  set (rec := unparse_node exports a fuel).
  cbv in Hnodes. cbv - [rec]. rewrite Hnodes. reflexivity.
Qed.

Lemma empty_array_literal_witness :
  unparse_node exports no_options 1 (new Array [VList []]) true 0 initial
  = Ok ("[]", initial).
Proof.
  apply (empty_array_literal no_options 0 true 0 initial
           [("nodes", VList []); ("lineno", VNone)]).
  reflexivity.
Defined.

(** C3 (as the code behaves). A non-empty Array whose first element is an
    ArrayElement instance is not rendered: translating that element reads
    [node.key], which the class (fields [name], [node], [is_ref]) does not
    have, and AttributeError is raised, keyed or not. *)
Theorem array_element_key_raises (a : args) (fuel : nat) (is_expr : bool)
  (indent : nat) (st : state) (key val is_ref : value) (rest : list value) :
  unparse_node exports a (S (S fuel))
    (new Array [VList (new ArrayElement [key; val; is_ref] :: rest)])
    is_expr indent st
  = Raise AttributeError.
Proof. reflexivity. Qed.

(** C9 (as the code behaves). Translating a While node raises NameError
    at line 173, in every state: the name [Foreach] is not bound (phpast.py
    declares [ForEach]), so no loop variable is made and the counter of
    line 174 is not reached.  Two sibling while-loops end the translation
    at the first one. *)
Theorem while_raises_NameError (a : args) (fuel : nat) (st : state) :
  (forall expr body is_expr indent,
     unparse_node exports a (S fuel) (new While [expr; body]) is_expr indent st
     = Raise NameError)
  /\ (forall expr body expr' body',
        unparse exports a (S fuel)
          (VList [new While [expr; body]; new While [expr'; body']]) st
        = Raise NameError).
Proof. split; intros; reflexivity. Qed.

(** C1 (as the code behaves). [unparse_node] raises on instances of most
    classes: NameError for every instance of the forty-two classes above
    (class and interface declarations, switch and case among them) and for
    a compound assignment other than [.=], since the test of line 177 names
    the unbound [Foreach]; AttributeError for an IsSet and for an
    ArrayElement, whose attributes [nodes] and [key] phpast.py does not
    declare. *)
Theorem unparse_node_raises (a : args) (fuel : nat) (is_expr : bool)
  (indent : nat) (st : state) :
  Forall (fun c => forall d,
            unparse_node exports a (S fuel) (VObj c d) is_expr indent st = Raise NameError)
         reaching_Foreach
  /\ (forall left right,
        unparse_node exports a (S fuel) (new AssignOp [VStr "+="; left; right])
          is_expr indent st = Raise NameError)
  /\ (forall expr,
        unparse_node exports a (S fuel) (new IsSet [expr]) is_expr indent st
        = Raise AttributeError)
  /\ (forall key val is_ref,
        unparse_node exports a (S fuel) (new ArrayElement [key; val; is_ref])
          is_expr indent st = Raise AttributeError).
Proof.
  split; [|repeat split; intros; reflexivity].
  unfold reaching_Foreach.
  repeat (apply Forall_cons; [intros d; reflexivity|]).
  apply Forall_nil.
Qed.






(** ** Stubs *)

(** C5 (as the code behaves). A run over three calls of [f] with 1, 3
    and 2 arguments, stubs requested, ends with NameError in the
    translation of the first call (the test of line 177 names the unbound
    [Foreach]): no call is recorded and no stub is written. *)
Theorem three_calls_no_stub (set_order : list string -> list string)
  (fuel : nat) (dry : bool) (lines : bool) :
  run exports {| stubs := Some "stubs.py"; dry_run := dry; use_line_statements := lines |}
      set_order (S fuel) three_calls
  = Raise NameError.
Proof. reflexivity. Qed.

(** ** The blank-line clean-up *)

Lemma collapse_pair (s : string) :
  collapse_blank_lines (nl ++ nl ++ s) = nl ++ collapse_blank_lines s.
Proof. reflexivity. Qed.

Lemma collapse_other (c : ascii) (s : string) :
  startswith (String c s) (nl ++ nl) = false ->
  collapse_blank_lines (String c s) = String c (collapse_blank_lines s).
Proof.
  intros H. unfold collapse_blank_lines, replace.
  change (nl ++ nl) with (String "010" (String "010" "")) in *.
  cbn [replace_from]. rewrite H. reflexivity.
Qed.

Lemma startswith_nl (c : ascii) (s : string) :
  startswith (String c s) nl = Ascii.eqb "010" c.
Proof.
  change (startswith (String c s) nl) with (Ascii.eqb "010" c && true).
  apply andb_true_r.
Qed.

Lemma startswith_nl2 (c : ascii) (s : string) :
  startswith (String c s) (nl ++ nl) = Ascii.eqb "010" c && startswith s nl.
Proof. reflexivity. Qed.

Lemma startswith_nl3 (c : ascii) (s : string) :
  startswith (String c s) (nl ++ nl ++ nl)
  = Ascii.eqb "010" c && startswith s (nl ++ nl).
Proof. reflexivity. Qed.

(** The clean-up keeps the first character. *)
Lemma collapse_head (s : string) :
  startswith (collapse_blank_lines s) nl = startswith s nl.
Proof.
  destruct s as [|c s]; [reflexivity|].
  destruct (startswith (String c s) (nl ++ nl)) eqn:E.
  - rewrite startswith_nl2 in E. apply andb_true_iff in E. destruct E as [Ec Es].
    apply Ascii.eqb_eq in Ec. subst c.
    destruct s as [|c' s]; [discriminate|].
    rewrite startswith_nl in Es. apply Ascii.eqb_eq in Es. subst c'.
    reflexivity.
  - rewrite (collapse_other c s E). reflexivity.
Qed.

Lemma collapse_fixed (s : string) :
  contains (nl ++ nl) s = false -> collapse_blank_lines s = s.
Proof.
  induction s as [|c s IH]; [reflexivity|].
  cbn [contains]. intros H. apply orb_false_iff in H. destruct H as [Hp Hc].
  rewrite (collapse_other c s Hp), (IH Hc). reflexivity.
Qed.

(** Without three newlines in a row, no two newlines in a row are left. *)
Lemma collapse_no_pair_left (n : nat) :
  forall s, String.length s <= n ->
    contains (nl ++ nl ++ nl) s = false ->
    contains (nl ++ nl) (collapse_blank_lines s) = false.
Proof.
  induction n as [|n IH]; intros s Hlen H3.
  - destruct s; [reflexivity | simpl in Hlen; lia].
  - destruct s as [|c s]; [reflexivity|].
    simpl in Hlen. cbn [contains] in H3. apply orb_false_iff in H3.
    destruct H3 as [Hp3 Hc3]. rewrite startswith_nl3 in Hp3.
    destruct (startswith (String c s) (nl ++ nl)) eqn:E.
    + rewrite startswith_nl2 in E. apply andb_true_iff in E. destruct E as [Ec Es].
      apply Ascii.eqb_eq in Ec. subst c.
      destruct s as [|c' s]; [discriminate|].
      rewrite startswith_nl in Es. apply Ascii.eqb_eq in Es. subst c'.
      change (String "010" (String "010" s)) with (nl ++ nl ++ s).
      rewrite collapse_pair.
      change (nl ++ collapse_blank_lines s)
        with (String "010" (collapse_blank_lines s)).
      cbn [contains]. rewrite startswith_nl2, collapse_head.
      rewrite startswith_nl2 in Hp3. rewrite !Ascii.eqb_refl in *.
      simpl andb in *. rewrite Hp3. simpl orb.
      apply IH; [simpl in Hlen; lia|].
      cbn [contains] in Hc3. apply orb_false_iff in Hc3. tauto.
    + rewrite (collapse_other c s E). cbn [contains].
      rewrite startswith_nl2. rewrite startswith_nl2 in E.
      rewrite collapse_head, E. simpl orb.
      apply IH; [lia | exact Hc3].
Qed.

(** C6 (amended). The clean-up of line 267 goes through the text once,
    left to right: two newlines in a row become one and the scan resumes
    behind them, any other character is kept.  It leaves a text without
    two newlines in a row unchanged, and applying it twice equals applying
    it once for every text without three newlines in a row. *)
Theorem collapse_blank_lines_once :
  (forall s, collapse_blank_lines (nl ++ nl ++ s) = nl ++ collapse_blank_lines s)
  /\ (forall c s, startswith (String c s) (nl ++ nl) = false ->
        collapse_blank_lines (String c s) = String c (collapse_blank_lines s))
  /\ (forall s, contains (nl ++ nl) s = false -> collapse_blank_lines s = s)
  /\ (forall s, contains (nl ++ nl ++ nl) s = false ->
        collapse_blank_lines (collapse_blank_lines s) = collapse_blank_lines s).
Proof.
  split; [exact collapse_pair|].
  split; [exact collapse_other|].
  split; [exact collapse_fixed|].
  intros s H. apply collapse_fixed.
  apply (collapse_no_pair_left (String.length s)); auto.
Qed.

Lemma collapse_blank_lines_once_witness :
  collapse_blank_lines ("a" ++ nl ++ nl ++ "b") = "a" ++ nl ++ "b"
  /\ collapse_blank_lines ("a" ++ nl ++ "b") = "a" ++ nl ++ "b"
  /\ collapse_blank_lines (collapse_blank_lines ("a" ++ nl ++ nl ++ "b"))
     = collapse_blank_lines ("a" ++ nl ++ nl ++ "b").
Proof.
  destruct collapse_blank_lines_once as [Hpair [Hother [Hfixed Htwice]]].
  split; [|split].
  - change ("a" ++ nl ++ nl ++ "b") with (String "a" (nl ++ nl ++ "b")).
    rewrite (Hother "a"%char (nl ++ nl ++ "b") eq_refl).
    rewrite (Hpair "b"). reflexivity.
  - apply Hfixed. reflexivity.
  - apply Htwice. reflexivity.
Defined.

(** Three newlines in a row: the first pass leaves two, the second one. *)
Lemma collapse_blank_lines_not_idempotent :
  collapse_blank_lines (collapse_blank_lines (nl ++ nl ++ nl))
  <> collapse_blank_lines (nl ++ nl ++ nl).
Proof. cbv. discriminate. Qed.

(** ** Runs *)

Lemma keeps_ret {A} (x : A) : keeps_state (ret x).
Proof. intros st y st' H; inversion H; reflexivity. Qed.

Lemma keeps_lift {A} (o : outcome A) : keeps_state (lift o).
Proof.
  intros st y st' H; unfold lift in H; destruct o; inversion H; reflexivity.
Qed.

Lemma keeps_attr (v : value) (f : string) : keeps_state (attr v f).
Proof. apply keeps_lift. Qed.

Lemma keeps_bind {A B} (m : M A) (f : A -> M B) :
  keeps_state m -> (forall x, keeps_state (f x)) -> keeps_state (bind m f).
Proof.
  intros Hm Hf st y st' H. unfold bind in H.
  destruct (m st) as [[x st1]| |] eqn:E; try discriminate.
  apply Hm in E. subst st1. exact (Hf x st y st' H).
Qed.

Lemma keeps_mapM {A B} (f : A -> M B) (l : list A) :
  (forall x, keeps_state (f x)) -> keeps_state (mapM f l).
Proof.
  intros Hf. induction l as [|x l IH]; simpl.
  - apply keeps_ret.
  - apply keeps_bind; [apply Hf|]. intros y.
    apply keeps_bind; [exact IH|]. intros ys. apply keeps_ret.
Qed.

Lemma keeps_foldM {A B} (f : B -> A -> M B) (l : list A) :
  (forall b x, keeps_state (f b x)) -> forall b, keeps_state (foldM f b l).
Proof.
  intros Hf. induction l as [|x l IH]; intros b; simpl.
  - apply keeps_ret.
  - apply keeps_bind; [apply Hf|]. intros y. apply IH.
Qed.

Lemma keeps_cascade_cons (test : outcome bool) (blk : block)
  (rules : list rule) (default : M string) :
  match blk with
  | Returns m => keeps_state m
  | MayFallThrough m => keeps_state m
  end ->
  keeps_state (cascade rules default) ->
  keeps_state (cascade ((test, blk) :: rules) default).
Proof.
  intros Hb Hr. simpl. apply keeps_bind; [apply keeps_lift|].
  intros [|]; [|exact Hr].
  destruct blk as [m|m]; [exact Hb|].
  apply keeps_bind; [exact Hb|]. intros [text|]; [apply keeps_ret | exact Hr].
Qed.

Ltac keeps :=
  repeat first
    [ apply keeps_ret | apply keeps_attr | apply keeps_lift
    | progress unfold unparse_each
    | apply keeps_mapM; intros
    | apply keeps_foldM; intros
    | apply keeps_bind; [|intros]
    | match goal with
      | H : forall n e i, keeps_state (?rec n e i) |- keeps_state (?rec _ _ _) =>
          apply H
      | |- keeps_state (if ?b then _ else _) => destruct b
      | |- keeps_state (match ?x with _ => _ end) => destruct x
      end ].

(** The twenty-one rules before line 171 update neither global; the block
    of line 171 and the test of line 177 raise NameError, so the rules
    behind them, the only ones that record calls, are never reached. *)
Lemma unparse_node_body_keeps_state (a : args)
  (rec : value -> bool -> nat -> M string)
  (node : value) (is_expr : bool) (indent : nat) :
  (forall n e i, keeps_state (rec n e i)) ->
  keeps_state (unparse_node_body exports a rec node is_expr indent).
Proof.
  intros Hrec. unfold unparse_node_body, rules.
  do 21 (apply keeps_cascade_cons; [keeps|]).
  apply keeps_cascade_cons; intros st x st' H; cbv in H; discriminate H.
Qed.

Lemma unparse_node_keeps_state (a : args) (fuel : nat) :
  forall node is_expr indent,
    keeps_state (unparse_node exports a fuel node is_expr indent).
Proof.
  induction fuel as [|fuel IH]; intros node is_expr indent.
  - intros st x st' H. discriminate H.
  - rewrite unparse_node_step. apply unparse_node_body_keeps_state. exact IH.
Qed.

Lemma unparse_keeps_state (a : args) (fuel : nat) (nodes : value) :
  keeps_state (unparse exports a fuel nodes).
Proof.
  unfold unparse. apply keeps_bind; [apply keeps_lift|]. intros xs.
  apply keeps_bind; [|intros; apply keeps_ret].
  apply keeps_mapM. intros x. apply unparse_node_keeps_state.
Qed.

(** C7. A run is a function of the options and the AST alone: it starts
    from the globals of lines 26-28 (the counter at 1), and what it writes,
    template and stubs file, does not depend on the order in which the
    Python process iterates a set. (No call is ever recorded, so the stubs
    loop, the one place that iterates a set, does not run.) *)
Theorem run_deterministic (a : args)
  (set_order set_order' : list string -> list string) (fuel : nat) (ast : value) :
  run exports a set_order fuel ast = run exports a set_order' fuel ast.
Proof.
  unfold run.
  destruct (unparse exports a fuel ast initial) as [[jinja st]| |] eqn:E; try reflexivity.
  apply unparse_keeps_state in E. subst st. simpl.
  rewrite andb_false_r. reflexivity.
Qed.

(** ** What the code attempts

    The lemmas of this section are about [names_as_used], not about the
    repository's program: they show what lines 171-264 do once the three
    class names are bound. *)

(** Unsupported kinds get the markers of lines 240-243. *)
Lemma markers_with_names_bound :
  unparse_node names_as_used no_options 2
    (new Switch [new Variable_ [VStr "$a"]; VList []]) false 0 initial
  = Ok ("{# XXX Switch(Variable('$a'), []) #}", initial)
  /\ unparse_node names_as_used no_options 2
       (new AssignOp [VStr "+="; new Variable_ [VStr "$a"]; VInt 1]) false 0 initial
     = Ok ("{# XXX AssignOp('+=', Variable('$a'), 1) #}", initial).
Proof. split; vm_compute; reflexivity. Qed.

(** A Foreach node without key variable becomes a for-loop over the
    value variable's name without its first character. *)
Lemma foreach_lowering_with_names_bound (a : args) (fuel : nat)
  (expr body : value) (name : string) (is_expr : bool) (indent : nat)
  (st st1 st2 : state) (e b : string) :
  unparse_node names_as_used a fuel expr true 0 st = Ok (e, st1) ->
  unparse_node names_as_used a fuel body false 0 st1 = Ok (b, st2) ->
  unparse_node names_as_used a (S fuel)
    (new Foreach [expr; VNone; new ForeachVariable [VStr name; VBool false]; body])
    is_expr indent st
  = Ok ("{% for " ++ match name with String _ s => s | EmptyString => "" end
        ++ " in " ++ e ++ " -%}" ++ b ++ "{% endfor -%}", st2).
Proof.
  intros He Hb.
  rewrite unparse_node_step.
  set (rec := unparse_node names_as_used a fuel) in *.
  cbv - [rec String.append]. rewrite He.
  cbv - [rec String.append]. rewrite Hb. reflexivity.
Qed.

(** A While node becomes a for-loop over [loop_var_<n>], [n] the value of
    the counter, and the counter is incremented once, before the condition
    and the body are translated. *)
Lemma while_lowering_with_names_bound (a : args) (fuel : nat)
  (expr body : value) (is_expr : bool) (indent : nat) (st st1 st2 : state)
  (e b : string) :
  unparse_node names_as_used a fuel expr true 0 (next_index st) = Ok (e, st1) ->
  unparse_node names_as_used a fuel body false 0 st1 = Ok (b, st2) ->
  unparse_node names_as_used a (S (S fuel)) (new While [expr; body])
    is_expr indent st
  = Ok ("{% for loop_var_" ++ str_int (loop_var_index st) ++ " in " ++ e
        ++ " -%}" ++ b ++ "{% endfor -%}", st2).
Proof.
  intros He Hb.
  pose proof (foreach_lowering_with_names_bound a fuel expr body
                ("$loop_var_" ++ str_int (loop_var_index st)) false 0
                (next_index st) st1 st2 e b He Hb) as H.
  rewrite unparse_node_step.
  set (rec1 := unparse_node names_as_used a (S fuel)) in *.
  cbv - [rec1 str_int String.append Z.add loop_var_index called_functions].
  cbv - [rec1 str_int String.append Z.add loop_var_index called_functions] in H.
  rewrite H. reflexivity.
Qed.

(** Two sibling while-loops get [loop_var_1] and [loop_var_2]. *)
Lemma sibling_while_loops_with_names_bound :
  unparse names_as_used no_options 3
    (VList [new While [new Variable_ [VStr "$a"]; new Block [VList []]];
            new While [new Variable_ [VStr "$b"]; new Block [VList []]]])
    initial
  = Ok ("{% for loop_var_1 in a -%}{% endfor -%}" ++ nl
        ++ "{% for loop_var_2 in b -%}{% endfor -%}",
        {| called_functions := []; loop_var_index := 3 |}).
Proof. vm_compute. reflexivity. Qed.

(** The stub of [f] for calls with 1, 3 and 2 arguments has three
    parameters, and its example comments come in the order in which the
    set is iterated: two iteration orders give two different files. *)
Lemma stubs_with_names_bound :
  option_map stubs_file
    (match run names_as_used stubs_requested distinct 4 three_calls with
     | Ok w => Some w
     | _ => None
     end)
  = Some (Some ("# stubs for observed function calls" ++ nl
                ++ "def f(arg0, arg1, arg2):" ++ nl
                ++ "    # f(1)" ++ nl
                ++ "    # f(1, 2)" ++ nl
                ++ "    # f(1, 2, 3)" ++ nl
                ++ "    pass" ++ nl ++ nl))
  /\ run names_as_used stubs_requested distinct 4 three_calls
     <> run names_as_used stubs_requested distinct_reversed 4 three_calls.
Proof. split; [vm_compute; reflexivity | vm_compute; discriminate]. Qed.

(** * More of the code *)

Import NodeMethods.

(** ** The depth of a tree *)

Lemma depth_VList l : depth (VList l) = S (depth_items l).
Proof. simpl. f_equal; try (induction l; simpl; auto). Qed.
Lemma depth_VObj c d : depth (VObj c d) = S (depth_attrs d).
Proof. simpl. f_equal; try (induction d as [|[k x] d IH]; simpl; auto). Qed.

Lemma depth_items_In l x : In x l -> depth x <= depth_items l.
Proof. induction l; simpl; intros []; subst; try lia. specialize (IHl H). lia. Qed.

Lemma depth_lookup d f x : lookup_attr d f = Some x -> depth x <= depth_attrs d.
Proof.
  induction d as [|[k y] d IH]; simpl; [discriminate|].
  destruct (String.eqb k f); intros H.
  - inversion H; subst. lia.
  - specialize (IH H). lia.
Qed.

Lemma depth_getattr v f x : getattr v f = Ok x -> depth x < depth v.
Proof.
  destruct v; try discriminate. unfold getattr.
  destruct (lookup_attr d f) eqn:E; [|discriminate].
  intros H; inversion H; subst. rewrite depth_VObj.
  apply depth_lookup in E. lia.
Qed.

Lemma depth_chars s x : In x (chars s) -> depth x = 0.
Proof. induction s; simpl; intros []; subst; auto. Qed.

Lemma depth_iter v xs : py_iter v = Ok xs -> forall x, In x xs -> depth x <= Nat.pred (depth v).
Proof.
  destruct v; try discriminate; intros H; inversion H; subst; intros x Hx.
  - apply depth_chars in Hx. lia.
  - rewrite depth_VList. simpl. apply depth_items_In; auto.
Qed.

Lemma depth_first v x : py_first v = Ok x -> depth x <= Nat.pred (depth v).
Proof.
  destruct v; try discriminate; simpl.
  - destruct s; [discriminate|]. intros H; inversion H; subst. simpl; lia.
  - destruct l; [discriminate|]. intros H; inversion H; subst.
    change (depth x <= Nat.pred (depth (VList (x :: l)))). rewrite depth_VList. simpl. lia.
Qed.

Lemma obind_defined {A B} (m : outcome A) (f : A -> outcome B) :
  m <> OutOfFuel -> (forall x, m = Ok x -> f x <> OutOfFuel) -> obind m f <> OutOfFuel.
Proof. destruct m; simpl; intros Hm Hf; [apply Hf; reflexivity | discriminate | congruence]. Qed.

(** The Python built-ins of the model are not bounded by a budget. *)
Lemma py_repr_defined_upto (n : nat) : forall v, depth v < n -> py_repr v <> OutOfFuel.
Proof.
  induction n as [|n IH]; intros v Hd; [lia|].
  destruct v; try discriminate.
  - rewrite depth_VList in Hd.
    assert (forall l', depth_items l' < n ->
              (fix items (l : list value) : outcome (list string) :=
                 match l with
                 | [] => Ok []
                 | x :: l' =>
                     obind (py_repr x) (fun s =>
                     obind (items l') (fun ss => Ok (s :: ss)))
                 end) l' <> OutOfFuel) as Hitems.
    { induction l' as [|x l' IHl]; intros Hl; [discriminate|].
      simpl in Hl.
      apply obind_defined; [apply IH; lia|]. intros s _.
      apply obind_defined; [apply IHl; lia|]. discriminate. }
    simpl. apply obind_defined; [apply Hitems; lia | discriminate].
  - rewrite depth_VObj in Hd. simpl.
    set (reprs := (fix attrs (d : list (string * value)) : list (string * outcome string) :=
           match d with
           | [] => []
           | (k, x) :: d' => (k, py_repr x) :: attrs d'
           end) d).
    assert (forall kr, In kr reprs -> snd kr <> OutOfFuel) as Hreprs.
    { subst reprs. clear c. induction d as [|[k x] d IHd]; [intros ? []|].
      simpl in Hd. intros kr [<-|Hin].
      - simpl. apply IH. lia.
      - apply IHd; [lia | exact Hin]. }
    apply obind_defined; [|discriminate].
    induction (fields c) as [|f fs IHfs]; [discriminate|]. simpl.
    apply obind_defined.
    + destruct (find (fun kr => String.eqb (fst kr) f) reprs) as [kr|] eqn:E;
        [|discriminate].
      apply find_some in E. apply Hreprs. tauto.
    + intros s _. apply obind_defined; [exact IHfs | discriminate].
Qed.

Lemma py_repr_defined v : py_repr v <> OutOfFuel.
Proof. apply (py_repr_defined_upto (S (depth v))). lia. Qed.

Lemma py_str_defined v : py_str v <> OutOfFuel.
Proof. destruct v; try apply py_repr_defined. discriminate. Qed.

Lemma omap_defined {A B} (f : A -> outcome B) (l : list A) :
  (forall x, In x l -> f x <> OutOfFuel) -> omap f l <> OutOfFuel.
Proof.
  induction l as [|x l IH]; intros H; [discriminate|]. simpl.
  apply obind_defined; [apply H; left; reflexivity|]. intros y _.
  apply obind_defined; [apply IH; intros; apply H; right; assumption | discriminate].
Qed.

Lemma exports_defined name : exports name <> OutOfFuel.
Proof. unfold exports. destruct (find_class classes name); discriminate. Qed.

Lemma isinstance_defined v names : isinstance exports v names <> OutOfFuel.
Proof.
  unfold isinstance. apply obind_defined; [|discriminate].
  apply omap_defined. intros; apply exports_defined.
Qed.

Lemma getattr_defined v f : getattr v f <> OutOfFuel.
Proof. destruct v; try discriminate. simpl. destruct (lookup_attr d f); discriminate. Qed.

Lemma py_iter_defined v : py_iter v <> OutOfFuel.
Proof. destruct v; discriminate. Qed.
Lemma py_first_defined v : py_first v <> OutOfFuel.
Proof. destruct v; try discriminate; simpl; [destruct s | destruct l]; discriminate. Qed.
Lemma py_len_defined v : py_len v <> OutOfFuel.
Proof. destruct v; discriminate. Qed.
Lemma py_tail_defined v : py_tail v <> OutOfFuel.
Proof. destruct v; discriminate. Qed.
Lemma py_lower_defined v : py_lower v <> OutOfFuel.
Proof. destruct v; discriminate. Qed.
Lemma dict_get_defined t v : dict_get t v <> OutOfFuel.
Proof.
  unfold dict_get. destruct (hashable v); [|discriminate].
  destruct v; try discriminate. destruct (find _ t); discriminate.
Qed.

(** ** Budget *)

Lemma finishes_ret {A} (x : A) : finishes (ret x).
Proof. intros st; discriminate. Qed.

Lemma finishes_lift {A} (o : outcome A) : o <> OutOfFuel -> finishes (lift o).
Proof. intros H st. unfold lift. destruct o; congruence. Qed.

Lemma finishes_attr v f : finishes (attr v f).
Proof. apply finishes_lift, getattr_defined. Qed.

Lemma finishes_bind {A B} (m : M A) (f : A -> M B) :
  finishes m ->
  (forall x st st', m st = Ok (x, st') -> finishes (f x)) ->
  finishes (bind m f).
Proof.
  intros Hm Hf st. unfold bind. specialize (Hm st).
  destruct (m st) as [[x st']| |] eqn:E; try congruence.
  exact (Hf x st st' E st').
Qed.

Lemma finishes_mapM {A B} (f : A -> M B) (l : list A) :
  (forall x, In x l -> finishes (f x)) -> finishes (mapM f l).
Proof.
  induction l as [|x l IH]; intros H; simpl; [apply finishes_ret|].
  apply finishes_bind; [apply H; left; reflexivity|]. intros y _ _ _.
  apply finishes_bind; [apply IH; intros; apply H; right; assumption|].
  intros; apply finishes_ret.
Qed.

Lemma finishes_foldM {A B} (f : B -> A -> M B) (l : list A) :
  (forall b x, In x l -> finishes (f b x)) -> forall b, finishes (foldM f b l).
Proof.
  induction l as [|x l IH]; intros H b; simpl; [apply finishes_ret|].
  apply finishes_bind; [apply H; left; reflexivity|]. intros b' _ _ _.
  apply IH. intros; apply H; right; assumption.
Qed.

Lemma attr_depth v f st x st' : attr v f st = Ok (x, st') -> depth x < depth v.
Proof.
  unfold attr, lift. destruct (getattr v f) eqn:E; try discriminate.
  intros H; inversion H; subst. exact (depth_getattr _ _ _ E).
Qed.

Lemma lift_Ok {A} (o : outcome A) st x st' : lift o st = Ok (x, st') -> o = Ok x.
Proof. unfold lift. destruct o; try discriminate. intros H; inversion H; reflexivity. Qed.

Lemma finishes_cascade_cons (test : outcome bool) (blk : block)
  (rules : list rule) (default : M string) :
  test <> OutOfFuel ->
  match blk with
  | Returns m => finishes m
  | MayFallThrough m => finishes m
  end ->
  finishes (cascade rules default) ->
  finishes (cascade ((test, blk) :: rules) default).
Proof.
  intros Ht Hb Hr. simpl. apply finishes_bind; [apply finishes_lift, Ht|].
  intros [|] _ _ _; [|exact Hr].
  destruct blk as [m|m]; [exact Hb|].
  apply finishes_bind; [exact Hb|]. intros [text|] _ _ _; [apply finishes_ret | exact Hr].
Qed.

Create HintDb defined.
#[local] Hint Resolve py_repr_defined py_str_defined isinstance_defined
  getattr_defined py_iter_defined py_first_defined py_len_defined
  py_tail_defined py_lower_defined dict_get_defined exports_defined : defined.

Ltac note_depths :=
  repeat match goal with
  | H : attr _ _ _ = Ok (_, _) |- _ => apply attr_depth in H
  | H : lift (py_iter _) _ = Ok (_, _) |- _ =>
      apply lift_Ok in H; pose proof (depth_iter _ _ H); clear H
  | H : lift (py_first _) _ = Ok (_, _) |- _ =>
      apply lift_Ok in H; apply depth_first in H
  end.

Ltac member :=
  match goal with
  | H : forall x, In x ?l -> _, Hy : In ?y ?l |- _ => pose proof (H y Hy); clear Hy
  end.

Ltac fin IH :=
  repeat first
    [ apply finishes_ret
    | apply finishes_attr
    | apply finishes_lift; solve [auto with defined | discriminate]
    | progress unfold unparse_each
    | apply finishes_mapM; intros ? ?; member
    | apply finishes_foldM; intros ? ? ?; member
    | apply IH; lia
    | apply finishes_bind; [|intros ? ? ? ?; note_depths]
    | match goal with
      | |- finishes (if ?b then _ else _) => destruct b
      | |- finishes (match ?x with _ => _ end) => destruct x
      end ].

Lemma unparse_node_body_finishes (a : args)
  (rec : value -> bool -> nat -> M string)
  (node : value) (is_expr : bool) (indent : nat) (n : nat) :
  depth node <= n ->
  (forall x e i, depth x < n -> finishes (rec x e i)) ->
  finishes (unparse_node_body exports a rec node is_expr indent).
Proof.
  intros Hd IH. unfold unparse_node_body, rules.
  do 21 (apply finishes_cascade_cons;
         [solve [auto with defined | discriminate] | fin IH |]).
  apply finishes_cascade_cons; [auto with defined| |]; intros st; cbv; discriminate.
Qed.

Lemma unparse_node_finishes (a : args) (fuel : nat) :
  forall node is_expr indent,
    depth node < fuel -> finishes (unparse_node exports a fuel node is_expr indent).
Proof.
  induction fuel as [|fuel IH]; intros node is_expr indent Hd; [lia|].
  rewrite unparse_node_step.
  apply (unparse_node_body_finishes a _ node is_expr indent fuel); [lia|].
  intros x e i Hx. apply IH. exact Hx.
Qed.

Lemma extends_refl {A} (m : M A) : extends m m.
Proof. intros st _; reflexivity. Qed.

Lemma extends_bind {A B} (m m' : M A) (f f' : A -> M B) :
  extends m m' -> (forall x, extends (f x) (f' x)) ->
  extends (bind m f) (bind m' f').
Proof.
  intros Hm Hf st H. unfold bind in *.
  destruct (m st) as [[x st1]| |] eqn:E; try congruence;
    rewrite (Hm st) by congruence; rewrite E; [|reflexivity].
  apply Hf. exact H.
Qed.

Lemma extends_mapM {A B} (f f' : A -> M B) (l : list A) :
  (forall x, extends (f x) (f' x)) -> extends (mapM f l) (mapM f' l).
Proof.
  intros Hf. induction l as [|x l IH]; simpl; [apply extends_refl|].
  apply extends_bind; [apply Hf|]. intros y.
  apply extends_bind; [exact IH|]. intros ys. apply extends_refl.
Qed.

Lemma extends_foldM {A B} (f f' : B -> A -> M B) (l : list A) :
  (forall b x, extends (f b x) (f' b x)) ->
  forall b, extends (foldM f b l) (foldM f' b l).
Proof.
  intros Hf. induction l as [|x l IH]; intros b; simpl; [apply extends_refl|].
  apply extends_bind; [apply Hf|]. intros b'. apply IH.
Qed.

Lemma extends_cascade_cons (test : outcome bool) (blk blk' : block)
  (rules rules' : list rule) (default default' : M string) :
  match blk, blk' with
  | Returns m, Returns m' => extends m m'
  | MayFallThrough m, MayFallThrough m' => extends m m'
  | _, _ => False
  end ->
  extends (cascade rules default) (cascade rules' default') ->
  extends (cascade ((test, blk) :: rules) default)
          (cascade ((test, blk') :: rules') default').
Proof.
  intros Hb Hr. simpl. apply extends_bind; [apply extends_refl|].
  intros [|]; [|exact Hr].
  destruct blk as [m|m], blk' as [m'|m']; try contradiction; [exact Hb|].
  apply extends_bind; [exact Hb|]. intros [text|]; [apply extends_refl | exact Hr].
Qed.

Ltac ext H :=
  repeat first
    [ apply extends_refl
    | apply H
    | progress unfold unparse_each, unparse_params
    | apply extends_mapM; intros
    | apply extends_foldM; intros
    | apply extends_bind; [|intros]
    | match goal with
      | |- extends (if ?b then _ else _) _ => destruct b
      | |- extends (match ?x with _ => _ end) _ => destruct x
      end ].

Lemma unparse_node_body_extends (globals : string -> outcome cls) (a : args)
  (rec rec' : value -> bool -> nat -> M string)
  (node : value) (is_expr : bool) (indent : nat) :
  (forall x e i, extends (rec x e i) (rec' x e i)) ->
  extends (unparse_node_body globals a rec node is_expr indent)
          (unparse_node_body globals a rec' node is_expr indent).
Proof.
  intros H. unfold unparse_node_body, rules.
  repeat (apply extends_cascade_cons; [ext H|]).
  unfold cascade. apply extends_refl.
Qed.

Lemma unparse_node_extends (globals : string -> outcome cls) (a : args) (fuel : nat) :
  forall node is_expr indent,
    extends (unparse_node globals a fuel node is_expr indent)
            (unparse_node globals a (S fuel) node is_expr indent).
Proof.
  induction fuel as [|fuel IH]; intros node is_expr indent.
  - intros st H. exfalso. apply H. reflexivity.
  - rewrite (unparse_node_step globals a (S fuel)), (unparse_node_step globals a fuel).
    apply unparse_node_body_extends. exact IH.
Qed.

(** ** One rule at a time *)








(** ** The budget is the depth of the tree *)

Lemma extends_trans {A} (m m' m'' : M A) :
  extends m m' -> extends m' m'' -> extends m m''.
Proof.
  intros H H' st Hst. rewrite H' by (rewrite H; assumption). apply H. exact Hst.
Qed.

Lemma unparse_node_extends_le (globals : string -> outcome cls) (a : args)
  (fuel fuel' : nat) :
  fuel <= fuel' ->
  forall node is_expr indent,
    extends (unparse_node globals a fuel node is_expr indent)
            (unparse_node globals a fuel' node is_expr indent).
Proof.
  induction 1 as [|fuel' Hle IH]; intros node is_expr indent.
  - apply extends_refl.
  - eapply extends_trans; [apply IH | apply unparse_node_extends].
Qed.

Lemma unparse_finishes (a : args) (fuel : nat) (ast : value) :
  depth ast < fuel -> finishes (unparse exports a fuel ast).
Proof.
  intros Hd. unfold unparse.
  apply finishes_bind; [apply finishes_lift, py_iter_defined|].
  intros xs st st' Hxs. apply lift_Ok in Hxs.
  apply finishes_bind; [|intros; apply finishes_ret].
  apply finishes_mapM. intros x Hx.
  apply unparse_node_finishes.
  pose proof (depth_iter _ _ Hxs x Hx). lia.
Qed.

Lemma unparse_extends_le (a : args) (fuel fuel' : nat) (ast : value) :
  fuel <= fuel' ->
  extends (unparse exports a fuel ast) (unparse exports a fuel' ast).
Proof.
  intros Hle. unfold unparse.
  apply extends_bind; [apply extends_refl|]. intros xs.
  apply extends_bind; [|intros; apply extends_refl].
  apply extends_mapM. intros x. apply unparse_node_extends_le. exact Hle.
Qed.

(** X1. The recursion of [unparse_node] is bounded by the nesting depth
    of the AST: with a budget above the depth the translation of a node
    ends, in a text or a Python exception, and every such budget gives the
    same outcome; the same holds of [unparse] over a list of nodes. *)
Theorem recursion_bounded_by_depth (a : args) (fuel : nat) (node : value)
  (is_expr : bool) (indent : nat) (st : state) :
  depth node < fuel ->
  unparse_node exports a fuel node is_expr indent st <> OutOfFuel
  /\ unparse_node exports a fuel node is_expr indent st
     = unparse_node exports a (S (depth node)) node is_expr indent st
  /\ unparse exports a fuel node st <> OutOfFuel
  /\ unparse exports a fuel node st = unparse exports a (S (depth node)) node st.
Proof.
  intros Hd. split; [|split; [|split]].
  - apply unparse_node_finishes. exact Hd.
  - apply unparse_node_extends_le; [lia|].
    apply unparse_node_finishes. lia.
  - apply unparse_finishes. exact Hd.
  - apply unparse_extends_le; [lia|].
    apply unparse_finishes. lia.
Qed.

Lemma recursion_bounded_by_depth_witness :
  unparse_node exports no_options 7
    (new Echo [VList [new BinaryOp [VStr "."; new Variable_ [VStr "$a"]; VInt 1]]])
    false 0 initial <> OutOfFuel
  /\ unparse_node exports no_options 7
       (new Echo [VList [new BinaryOp [VStr "."; new Variable_ [VStr "$a"]; VInt 1]]])
       false 0 initial
     = unparse_node exports no_options
         (S (depth (new Echo [VList [new BinaryOp [VStr ".";
                                                   new Variable_ [VStr "$a"];
                                                   VInt 1]]])))
         (new Echo [VList [new BinaryOp [VStr "."; new Variable_ [VStr "$a"]; VInt 1]]])
         false 0 initial.
Proof.
  assert (depth (new Echo [VList [new BinaryOp [VStr "."; new Variable_ [VStr "$a"];
                                                VInt 1]]]) < 7) as Hd
    by (vm_compute; lia).
  destruct (recursion_bounded_by_depth no_options 7 _ false 0 initial Hd)
    as [H1 [H2 _]].
  split; [exact H1 | exact H2].
Defined.

(** X2. Whatever the options and the AST, a run that ends without an
    exception has written no stubs file: the translation leaves the
    registry of calls empty and the loop counter at 1, and the template is
    the cleaned-up text of [unparse] unless the run is a dry run. *)
Theorem run_writes_no_stubs (a : args) (set_order : list string -> list string)
  (fuel : nat) (ast : value) (w : written) :
  run exports a set_order fuel ast = Ok w ->
  exists jinja,
    unparse exports a fuel ast initial = Ok (jinja, initial)
    /\ stubs_file w = None
    /\ template w = if dry_run a then None else Some (collapse_blank_lines jinja).
Proof.
  unfold run.
  destruct (unparse exports a fuel ast initial) as [[jinja st]| |] eqn:E;
    try discriminate.
  pose proof (unparse_keeps_state a fuel ast _ _ _ E) as ->.
  simpl. rewrite andb_false_r. simpl.
  intros H. inversion H; subst; clear H. exists jinja. simpl.
  repeat split. destruct (dry_run a); reflexivity.
Qed.

Lemma run_writes_no_stubs_witness :
  exists jinja,
    unparse exports stubs_requested 3
      (VList [new Echo [VList [new Variable_ [VStr "$x"]]]]) initial
    = Ok (jinja, initial)
    /\ stubs_file {| template := Some "{{ x | safe -}}"; stubs_file := None |} = None
    /\ template {| template := Some "{{ x | safe -}}"; stubs_file := None |}
       = if dry_run stubs_requested then None else Some (collapse_blank_lines jinja).
Proof.
  apply (run_writes_no_stubs stubs_requested distinct 3
           (VList [new Echo [VList [new Variable_ [VStr "$x"]]]])).
  vm_compute. reflexivity.
Defined.


(** ** The methods of [Node] *)

Lemma omap_ext {A B} (f g : A -> outcome B) (l : list A) :
  (forall x, In x l -> f x = g x) -> omap f l = omap g l.
Proof.
  induction l as [|x l IH]; intros H; [reflexivity|]. simpl.
  rewrite (H x (or_introl eq_refl)), IH; [reflexivity|].
  intros; apply H; right; assumption.
Qed.

(** [Node.__repr__] in terms of attribute lookup. *)
Lemma py_repr_VObj (c : cls) (d : list (string * value)) :
  py_repr (VObj c d)
  = obind (omap (fun f => match lookup_attr d f with
                          | Some x => py_repr x
                          | None => Raise AttributeError
                          end) (fields c))
          (fun ss => Ok (cls_name c ++ "(" ++ join ", " ss ++ ")")).
Proof.
  simpl. f_equal. apply omap_ext. intros f _.
  induction d as [|[k x] d IH]; [reflexivity|]. simpl.
  destruct (String.eqb k f); [reflexivity | exact IH].
Qed.


(** Mapping over the declared fields is mapping over the arguments. *)
Lemma omap_fields_args {B} (F : string -> outcome B) (G : value -> outcome B) :
  forall fs args,
    length fs = length args ->
    (forall i f v, nth_error fs i = Some f -> nth_error args i = Some v -> F f = G v) ->
    omap F fs = omap G args.
Proof.
  induction fs as [|f fs IH]; intros [|v args] Hlen H; try discriminate; [reflexivity|].
  simpl. rewrite (H 0 f v eq_refl eq_refl). f_equal.
  rewrite (IH args); [reflexivity | simpl in Hlen; lia |].
  intros i f' v' Hf Hv. exact (H (S i) f' v' Hf Hv).
Qed.

Lemma Node_init_Ok (c : cls) (args : list value) (lineno : option value) (obj : value) :
  Node_init c args lineno = Ok obj ->
  length (fields c) = length args
  /\ exists d, obj = VObj c d
       /\ bind_fields (fields c) args
            (setattr [] "lineno" match lineno with Some l => l | None => VNone end)
          = Ok d.
Proof.
  unfold Node_init.
  destruct (Nat.eqb_spec (length (fields c)) (length args)) as [E|E]; [|discriminate].
  destruct (bind_fields _ _ _) as [d| |] eqn:Hd; simpl; try discriminate.
  intros H; inversion H; subst. eauto.
Qed.

(** X4. The [repr] of an instance built by [Node.__init__] reads as the
    constructor call: the class name and, in parentheses, the [repr] of the
    positional arguments in order, separated by [, ]; [lineno] is not
    shown. *)
Theorem repr_shows_constructor_call (c : cls) (args : list value)
  (lineno : option value) (obj : value) (texts : list string) :
  In c classes ->
  Node_init c args lineno = Ok obj ->
  omap py_repr args = Ok texts ->
  py_repr obj = Ok (cls_name c ++ "(" ++ join ", " texts ++ ")").
Proof.
  intros Hc Hinit Hargs.
  destruct (Node_init_Ok _ _ _ _ Hinit) as [Hlen [d [-> Hd]]].
  rewrite py_repr_VObj.
  rewrite (omap_fields_args _ py_repr (fields c) args Hlen), Hargs; [reflexivity|].
  intros i f v Hf Hv.
  rewrite (bind_fields_binds _ _ _ _ i f v (classes_fields_NoDup c Hc) Hd Hf Hv).
  reflexivity.
Qed.

Lemma repr_shows_constructor_call_witness :
  py_repr (new BinaryOp [VStr "."; new Variable_ [VStr "$a"]; VInt 1])
  = Ok (cls_name BinaryOp ++ "(" ++ join ", " ["'.'"; "Variable('$a')"; "1"] ++ ")").
Proof.
  apply (repr_shows_constructor_call BinaryOp
           [VStr "."; new Variable_ [VStr "$a"]; VInt 1] None).
  - unfold classes. simpl. tauto.
  - reflexivity.
  - reflexivity.
Defined.

(** *** Trees with all their fields *)














(** *** [generic] *)

Lemma entry_on_attrs {A} (g : value -> A) (d : list (string * value)) (f : string) :
  entry (on_attrs g d) f = option_map g (lookup_attr d f).
Proof.
  unfold entry, on_attrs. induction d as [|[k x] d IH]; [reflexivity|]. simpl.
  destruct (String.eqb k f); [reflexivity | exact IH].
Qed.

Lemma dict_set_fresh {A} (d : list (string * A)) (k : string) (x : A) :
  ~ In k (map fst d) -> dict_set d k x = (d ++ [(k, x)])%list.
Proof.
  induction d as [|[k' y] d IH]; intros H; [reflexivity|]. simpl in *.
  destruct (String.eqb_spec k' k) as [E|E]; [exfalso; apply H; left; exact E|].
  rewrite IH; [reflexivity | intros Hin; apply H; right; exact Hin].
Qed.

Lemma dict_set_keys {A} (d : list (string * A)) (k : string) (x : A) (f : string) :
  In f (map fst (dict_set d k x)) <-> f = k \/ In f (map fst d).
Proof.
  induction d as [|[k' y] d IH]; simpl; [intuition congruence|].
  destruct (String.eqb_spec k' k) as [E|E]; simpl; [subst; intuition congruence|].
  rewrite IH. intuition congruence.
Qed.

(** The loop of [generic] over the fields of an instance that binds the
    i-th field to the i-th argument. *)
Lemma fill_args (conv : value -> outcome generic_form) (d : list (string * value)) :
  forall fs args values,
    NoDup fs ->
    length fs = length args ->
    (forall i f v, nth_error fs i = Some f -> nth_error args i = Some v ->
                   lookup_attr d f = Some v) ->
    (forall f, In f fs -> ~ In f (map fst values)) ->
    fill (on_attrs conv d) fs values
    = obind (omap conv args) (fun gs => Ok (values ++ combine fs gs)%list).
Proof.
  induction fs as [|f fs IH]; intros [|v args] values Hnd Hlen H Hfresh;
    try discriminate.
  - simpl. rewrite app_nil_r. reflexivity.
  - simpl. rewrite entry_on_attrs, (H 0 f v eq_refl eq_refl). simpl.
    destruct (conv v) as [g| |]; simpl; try reflexivity.
    inversion Hnd as [|? ? Hf Hnd']; subst.
    rewrite (IH args).
    + rewrite dict_set_fresh by (apply Hfresh; left; reflexivity).
      destruct (omap conv args) as [gs| |]; simpl; try reflexivity.
      rewrite <- app_assoc. reflexivity.
    + exact Hnd'.
    + simpl in Hlen. lia.
    + intros i f' v' Hf' Hv'. exact (H (S i) f' v' Hf' Hv').
    + intros f' Hin Hkey. apply dict_set_keys in Hkey.
      destruct Hkey as [->|Hkey]; [exact (Hf Hin)|].
      exact (Hfresh f' (or_intror Hin) Hkey).
Qed.

(** X6. [generic] of an instance built by [Node.__init__] is the pair of
    the class name and a dict that maps each declared field, in the order
    of the declaration, to its converted argument; the conversions are done
    in that order and the first that raises ends the call; [lineno] is not
    part of the result. *)
Theorem generic_of_instance (c : cls) (args : list value)
  (lineno : option value) (obj : value) :
  In c classes ->
  Node_init c args lineno = Ok obj ->
  generic obj
  = obind (omap (convert generic) args)
          (fun gs => Ok (Generic (cls_name c) (combine (fields c) gs))).
Proof.
  intros Hc Hinit.
  destruct (Node_init_Ok _ _ _ _ Hinit) as [Hlen [d [-> Hd]]].
  simpl generic.
  rewrite (fill_args (convert generic) d (fields c) args []
             (classes_fields_NoDup c Hc) Hlen).
  - destruct (omap (convert generic) args); reflexivity.
  - intros i f v Hf Hv.
    exact (bind_fields_binds _ _ _ _ i f v (classes_fields_NoDup c Hc) Hd Hf Hv).
  - intros f _ [].
Qed.

Lemma generic_of_instance_witness :
  generic (new Block [VList [new InlineHTML [VStr "a"]; VInt 1; VList [VInt 2]]])
  = Ok (Generic "Block"
          [("nodes", Items [Generic "InlineHTML" [("data", Plain (VStr "a"))];
                            Plain (VInt 1); Plain (VList [VInt 2])])]).
Proof.
  rewrite (generic_of_instance Block
             [VList [new InlineHTML [VStr "a"]; VInt 1; VList [VInt 2]]]
             None).
  - reflexivity.
  - unfold classes. simpl. tauto.
  - reflexivity.
Defined.






(** *** [__eq__] *)

Section Equality_facts.

Variable float_eq : string -> value -> bool.

Notation "x == y" := (py_eq float_eq x y) (at level 70, no associativity).

Lemma cls_eqb_refl (c : cls) : cls_eqb c c = true.
Proof. apply cls_eqb_eq. reflexivity. Qed.

Lemma cls_eqb_sym (c c' : cls) : cls_eqb c c' = cls_eqb c' c.
Proof.
  destruct (cls_eqb c c') eqn:E, (cls_eqb c' c) eqn:E'; try reflexivity.
  - apply cls_eqb_eq in E. subst. rewrite cls_eqb_refl in E'. discriminate.
  - apply cls_eqb_eq in E'. subst. rewrite cls_eqb_refl in E. discriminate.
Qed.

(** The loop of [__eq__] over the fields of two instances that bind the
    i-th field to the i-th argument. *)
Lemma each_field_args (c' : cls) (d d' : list (string * value)) :
  forall fs args args',
    length fs = length args ->
    length fs = length args' ->
    (forall i f v, nth_error fs i = Some f -> nth_error args i = Some v ->
                   lookup_attr d f = Some v) ->
    (forall i f v, nth_error fs i = Some f -> nth_error args' i = Some v ->
                   lookup_attr d' f = Some v) ->
    each_field (on_attrs (py_eq float_eq) d) (VObj c' d') fs
    = items_eq (py_eq float_eq) args args'.
Proof.
  induction fs as [|f fs IH]; intros [|v args] [|v' args'] Hl Hl' H H';
    try discriminate; [reflexivity|].
  simpl. rewrite entry_on_attrs, (H 0 f v eq_refl eq_refl),
    (H' 0 f v' eq_refl eq_refl). simpl.
  destruct (v == v') as [[|]| |]; simpl; try reflexivity.
  apply IH; [simpl in Hl; lia | simpl in Hl'; lia | |].
  - intros i g x Hg Hx. exact (H (S i) g x Hg Hx).
  - intros i g x Hg Hx. exact (H' (S i) g x Hg Hx).
Qed.

(** X8. Two instances of the same class are equal exactly when their
    positional arguments are: [==] compares the arguments pairwise in the
    order of the fields, up to the first pair that differs or raises, and
    [lineno] plays no part.  Instances of different classes are not equal,
    whatever they hold. *)
Theorem eq_of_instances (c : cls) (args args' : list value)
  (lineno lineno' : option value) (x y : value) :
  In c classes ->
  Node_init c args lineno = Ok x ->
  Node_init c args' lineno' = Ok y ->
  (x == y) = items_eq (py_eq float_eq) args args'
  /\ forall c' args'' lineno'' z,
       c' <> c -> Node_init c' args'' lineno'' = Ok z ->
       (x == z) = Ok false /\ (z == x) = Ok false.
Proof.
  intros Hc Hx Hy.
  destruct (Node_init_Ok _ _ _ _ Hx) as [Hlen [d [-> Hd]]].
  destruct (Node_init_Ok _ _ _ _ Hy) as [Hlen' [d' [-> Hd']]].
  pose proof (classes_fields_NoDup c Hc) as Hnd.
  split.
  - simpl. rewrite cls_eqb_refl.
    apply each_field_args; try assumption.
    + intros i f v Hf Hv. exact (bind_fields_binds _ _ _ _ i f v Hnd Hd Hf Hv).
    + intros i f v Hf Hv. exact (bind_fields_binds _ _ _ _ i f v Hnd Hd' Hf Hv).
  - intros c' args'' lineno'' z Hne Hz.
    destruct (Node_init_Ok _ _ _ _ Hz) as [_ [d'' [-> _]]].
    assert (cls_eqb c' c = false) as E.
    { destruct (cls_eqb c' c) eqn:E; [|reflexivity].
      apply cls_eqb_eq in E. contradiction. }
    simpl. rewrite E. rewrite cls_eqb_sym, E. split; reflexivity.
Qed.










End Equality_facts.

Lemma eq_of_instances_witness :
  py_eq (fun _ _ => false)
    (VObj Variable_ [("name", VStr "$a"); ("lineno", VInt 3)])
    (VObj Variable_ [("name", VStr "$a"); ("lineno", VNone)])
  = Ok true.
Proof.
  refine (proj1 (eq_of_instances (fun _ _ => false) Variable_
                   [VStr "$a"] [VStr "$a"] (Some (VInt 3)) None _ _ _ _ _)).
  - unfold classes. simpl. tauto.
  - reflexivity.
  - reflexivity.
Defined.


(** ** Lists of statements *)

Lemma mapM_app {A B} (f : A -> M B) (xs ys : list A) (st st1 st2 : state)
  (us vs : list B) :
  mapM f xs st = Ok (us, st1) ->
  mapM f ys st1 = Ok (vs, st2) ->
  mapM f (xs ++ ys) st = Ok ((us ++ vs)%list, st2).
Proof.
  revert st us. induction xs as [|x xs IH]; intros st us Hx Hy; simpl in *.
  - inversion Hx; subst. exact Hy.
  - unfold bind in *. destruct (f x st) as [[y st']| |]; try discriminate.
    destruct (mapM f xs st') as [[us' st'']| |] eqn:E; try discriminate.
    inversion Hx; subst.
    rewrite (IH st' us' E Hy). reflexivity.
Qed.

Lemma mapM_length {A B} (f : A -> M B) (xs : list A) :
  forall st us st', mapM f xs st = Ok (us, st') -> length us = length xs.
Proof.
  induction xs as [|x xs IH]; intros st us st' H; simpl in H.
  - inversion H; reflexivity.
  - unfold bind in H. destruct (f x st) as [[y st1]| |]; try discriminate.
    destruct (mapM f xs st1) as [[us' st2]| |] eqn:E; try discriminate.
    inversion H; subst. simpl. rewrite (IH _ _ _ E). reflexivity.
Qed.

Lemma join_app (sep : string) (us vs : list string) :
  join sep (us ++ vs)
  = match us, vs with
    | [], _ => join sep vs
    | _, [] => join sep us
    | _, _ => join sep us ++ sep ++ join sep vs
    end.
Proof.
  induction us as [|u us IH]; [reflexivity|].
  destruct vs as [|v vs]; [rewrite app_nil_r; reflexivity|].
  destruct us as [|u' us].
  - reflexivity.
  - change (join sep ((u :: u' :: us) ++ v :: vs))
      with (u ++ sep ++ join sep ((u' :: us) ++ v :: vs)).
    rewrite IH.
    change (join sep (u :: u' :: us)) with (u ++ sep ++ join sep (u' :: us)).
    rewrite !append_assoc. reflexivity.
Qed.

Lemma unparse_VList (globals : string -> outcome cls) (a : args) (fuel : nat)
  (xs : list value) (st st' : state) (s : string) :
  unparse globals a fuel (VList xs) st = Ok (s, st') ->
  exists texts,
    mapM (fun x => unparse_node globals a fuel x false 0) xs st = Ok (texts, st')
    /\ s = join nl texts.
Proof.
  unfold unparse, bind, lift, ret. simpl.
  destruct (mapM _ xs st) as [[texts st1]| |]; try discriminate.
  intros H; inversion H; subst. eauto.
Qed.

(** X10. The template of two lists of statements put one after the other
    is the template of the first, a newline, and the template of the
    second, the second being translated with the globals the first leaves;
    an empty list contributes neither text nor newline.  This holds
    whatever classes the names of the module are bound to. *)
Theorem unparse_append (globals : string -> outcome cls) (a : args) (fuel : nat)
  (xs ys : list value) (st st1 st2 : state) (s t : string) :
  unparse globals a fuel (VList xs) st = Ok (s, st1) ->
  unparse globals a fuel (VList ys) st1 = Ok (t, st2) ->
  unparse globals a fuel (VList (xs ++ ys)) st
  = Ok (match xs, ys with
        | [], _ => t
        | _, [] => s
        | _, _ => s ++ nl ++ t
        end, st2).
Proof.
  intros Hx Hy.
  destruct (unparse_VList _ _ _ _ _ _ _ Hx) as [us [Hus ->]].
  destruct (unparse_VList _ _ _ _ _ _ _ Hy) as [vs [Hvs ->]].
  pose proof (mapM_length _ _ _ _ _ Hus) as Lu.
  pose proof (mapM_length _ _ _ _ _ Hvs) as Lv.
  unfold unparse, bind, lift, ret. simpl.
  rewrite (mapM_app _ _ _ _ _ _ _ _ Hus Hvs), join_app.
  destruct xs, ys, us, vs; try discriminate; reflexivity.
Qed.

Lemma unparse_append_witness :
  unparse exports no_options 3
    (VList ([new InlineHTML [VStr "a"]] ++ [new Echo [VList [new Variable_ [VStr "$x"]]]]))
    initial
  = Ok ("a" ++ nl ++ "{{ x | safe -}}", initial).
Proof.
  apply (unparse_append exports no_options 3
           [new InlineHTML [VStr "a"]]
           [new Echo [VList [new Variable_ [VStr "$x"]]]]
           initial initial initial "a" "{{ x | safe -}}").
  - vm_compute. reflexivity.
  - vm_compute. reflexivity.
Defined.

(** ** The argument [is_expr] *)

Lemma same_cascade_cons (test : outcome bool) (blk : block)
  (rs rs' : list rule) (d d' : M string) :
  same_result (cascade rs d) (cascade rs' d') ->
  same_result (cascade ((test, blk) :: rs) d) (cascade ((test, blk) :: rs') d').
Proof.
  intros H st. simpl. unfold bind, lift.
  destruct test as [[|]| |]; try reflexivity; [|apply H].
  destruct blk as [m|m]; [reflexivity|].
  destruct (m st) as [[[text|] st']| |]; try reflexivity. apply H.
Qed.

Lemma same_cascade_raise (e : exn) (blk blk' : block)
  (rs rs' : list rule) (d d' : M string) :
  same_result (cascade ((Raise e, blk) :: rs) d) (cascade ((Raise e, blk') :: rs') d').
Proof. intros st. reflexivity. Qed.

Lemma isinstance_Foreach (node : value) :
  isinstance exports node ["Foreach"] = Raise NameError.
Proof. reflexivity. Qed.

(** X11. With the classes of phpast.py, the argument [is_expr] has no
    effect on what [unparse_node] returns or raises: every statement that
    reads it (lines 218-243) lies behind the test of line 177, which raises
    NameError. *)
Theorem is_expr_has_no_effect (a : args) (fuel : nat) (node : value)
  (is_expr is_expr' : bool) (indent : nat) (st : state) :
  unparse_node exports a fuel node is_expr indent st
  = unparse_node exports a fuel node is_expr' indent st.
Proof.
  destruct fuel as [|fuel]; [reflexivity|]. simpl.
  unfold unparse_node_body, rules.
  revert st. change (same_result ?m ?m') with (forall st, m st = m' st).
  do 22 apply same_cascade_cons.
  rewrite isinstance_Foreach. apply same_cascade_raise.
Qed.

(** ** Runs of newlines *)

Lemma collapse_run (s : string) :
  startswith s nl = false ->
  forall n,
    collapse_blank_lines (times nl n ++ s)
    = times nl (Nat.div2 (S n)) ++ collapse_blank_lines s
    /\ collapse_blank_lines (times nl (S n) ++ s)
       = times nl (Nat.div2 (S (S n))) ++ collapse_blank_lines s.
Proof.
  intros Hs. induction n as [|n [IH1 IH2]].
  - split; [reflexivity|].
    change (times nl 1 ++ s) with (String "010" s).
    rewrite collapse_other; [reflexivity|].
    rewrite startswith_nl2, Hs. apply andb_false_r.
  - split; [exact IH2|].
    change (times nl (S (S n)) ++ s) with (nl ++ nl ++ (times nl n ++ s)).
    rewrite collapse_pair, IH1. reflexivity.
Qed.

(** X12. The clean-up of line 267 halves every run of newlines, rounding
    up: a run of n newlines in front of any other text comes out as a run
    of (n + 1) / 2, so three or more in a row are never brought down to
    one. *)
Theorem collapse_halves_runs (n : nat) (s : string) :
  startswith s nl = false ->
  collapse_blank_lines (times nl n ++ s)
  = times nl (Nat.div2 (S n)) ++ collapse_blank_lines s.
Proof. intros Hs. exact (proj1 (collapse_run s Hs n)). Qed.

Lemma collapse_halves_runs_witness :
  collapse_blank_lines (times nl 5 ++ "b") = times nl 3 ++ collapse_blank_lines "b".
Proof. apply (collapse_halves_runs 5 "b"). reflexivity. Defined.

(** ** The stubs *)

Lemma insert_sorted_In (k : nat) (x : value) (l : list (nat * value)) (p : nat * value) :
  In p (insert_sorted k x l) <-> p = (k, x) \/ In p l.
Proof.
  induction l as [|[k' y] l IH]; simpl; [intuition congruence|].
  destruct (k' <? k); simpl; [rewrite IH|]; intuition congruence.
Qed.

Lemma insert_sorted_sorted (k : nat) (x : value) (l : list (nat * value)) :
  ascending l -> ascending (insert_sorted k x l).
Proof.
  induction l as [|[k' y] l IH]; simpl; [auto|]. intros [Hall Hl].
  destruct (Nat.ltb_spec k' k) as [Hlt|Hge]; simpl.
  - split; [|exact (IH Hl)].
    apply Forall_forall. intros p Hp. apply insert_sorted_In in Hp.
    destruct Hp as [->|Hp]; [unfold by_key; simpl; lia|].
    exact (proj1 (Forall_forall _ _) Hall p Hp).
  - split; [|split; assumption].
    constructor; [unfold by_key; simpl; lia|].
    apply Forall_forall. intros p Hp.
    pose proof (proj1 (Forall_forall _ _) Hall p Hp) as H'.
    unfold by_key in *. simpl in *. lia.
Qed.

Lemma sorted_last (l : list (nat * value)) (z : nat * value) :
  forall l', ascending l -> l = (l' ++ [z])%list ->
    forall p, In p l -> fst p <= fst z.
Proof.
  induction l as [|q l IH]; intros l' Hs E p Hp; [destruct Hp|].
  destruct Hs as [Hall Hs'].
  destruct l' as [|q' l']; simpl in E; inversion E; subst.
  - destruct Hp as [<-|[]]. lia.
  - destruct Hp as [<-|Hp].
    + apply (proj1 (Forall_forall _ _) Hall z). apply in_or_app. right. left. reflexivity.
    + exact (IH l' Hs' eq_refl p Hp).
Qed.

Lemma keyed_nodes (nodes : list value) :
  forall ks keyed,
    Forall2 (fun n k => arity n = Ok k) nodes ks ->
    omap (fun n => obind (arity n) (fun k => Ok (k, n))) nodes = Ok keyed ->
    map fst keyed = ks /\ Forall (fun p => arity (snd p) = Ok (fst p)) keyed.
Proof.
  induction nodes as [|n nodes IH]; intros ks keyed H E; inversion H; subst; simpl in E.
  - inversion E; subst. split; constructor.
  - match goal with Hn : arity n = Ok _ |- _ => rewrite Hn in E end. simpl in E.
    destruct (omap _ nodes) as [keyed'| |] eqn:E'; try discriminate.
    inversion E; subst. simpl.
    match goal with Hf : Forall2 _ nodes _ |- _ =>
      destruct (IH _ _ Hf eq_refl) as [<- Hall] end.
    split; [reflexivity|]. constructor; assumption.
Qed.

Lemma fold_insert_sorted (keyed : list (nat * value)) :
  ascending
    (fold_right (fun kx acc => insert_sorted (fst kx) (snd kx) acc) [] keyed)
  /\ forall p,
       In p (fold_right (fun kx acc => insert_sorted (fst kx) (snd kx) acc) [] keyed)
       <-> In p keyed.
Proof.
  induction keyed as [|[k x] keyed [IHs IHi]]; simpl.
  - split; [exact I | tauto].
  - split; [apply insert_sorted_sorted; exact IHs|].
    intros p. rewrite insert_sorted_In, IHi. intuition congruence.
Qed.

Lemma list_max_is (ks : list nat) (m : nat) :
  In m ks -> (forall k, In k ks -> k <= m) -> list_max ks = m.
Proof.
  intros Hin Hle. apply Nat.le_antisymm.
  - apply list_max_le. apply Forall_forall. exact Hle.
  - pose proof (proj1 (list_max_le ks (list_max ks)) (Nat.le_refl _)) as H.
    exact (proj1 (Forall_forall _ _) H m Hin).
Qed.

Lemma length_chars (s : string) : length (chars s) = String.length s.
Proof. induction s as [|c s IH]; simpl; [reflexivity | rewrite IH; reflexivity]. Qed.

Lemma py_iter_len (v : value) (xs : list value) :
  py_iter v = Ok xs -> py_len v = Ok (length xs).
Proof.
  destruct v; simpl; try discriminate; intros H; inversion H; subst;
    [rewrite length_chars|]; reflexivity.
Qed.

(** The call [nodes[-1]] of line 259 has the most arguments. *)
Lemma longest_arity (nodes sorted : list value) (ks : list nat) (x : value) :
  Forall2 (fun n k => arity n = Ok k) nodes ks ->
  sorted_by_arity nodes = Ok sorted ->
  py_last sorted = Ok x ->
  arity x = Ok (list_max ks).
Proof.
  intros Hks Hs Hx. unfold sorted_by_arity in Hs.
  destruct (omap _ nodes) as [keyed| |] eqn:E; try discriminate.
  simpl in Hs. inversion Hs; subst sorted; clear Hs.
  destruct (keyed_nodes _ _ _ Hks E) as [<- Hall].
  destruct (fold_insert_sorted keyed) as [Hsorted Hin].
  set (l := fold_right _ [] keyed) in *.
  unfold py_last in Hx. rewrite <- map_rev in Hx.
  destruct (rev l) as [|z r] eqn:Er; [discriminate|].
  simpl in Hx. inversion Hx; subst x; clear Hx.
  assert (l = (rev r ++ [z])%list) as El.
  { rewrite <- (rev_involutive l), Er. reflexivity. }
  assert (In z keyed) as Hz.
  { apply Hin. rewrite El. apply in_or_app. right. left. reflexivity. }
  rewrite (proj1 (Forall_forall _ _) Hall z Hz). f_equal. symmetry.
  apply list_max_is.
  - apply in_map. exact Hz.
  - intros k Hk. apply in_map_iff in Hk. destruct Hk as [p [<- Hp]].
    apply (sorted_last l z (rev r) Hsorted El). apply Hin. exact Hp.
Qed.

(** X13. Whatever classes the names of the module are bound to, the stub
    written for a function declares as many parameters, arg0, arg1, ..., as
    the recorded call with the most arguments has, shows at most three
    example comments, none for a function only ever called without
    arguments, and ends in [pass] and an empty line. *)
Theorem stub_parameters_of_longest_call (globals : string -> outcome cls)
  (a : args) (set_order : list string -> list string) (fuel : nat)
  (name : string) (nodes : list value) (ks : list nat)
  (st st' : state) (text : string) :
  Forall2 (fun n k => arity n = Ok k) nodes ks ->
  stub globals a set_order fuel name nodes st = Ok (text, st') ->
  exists examples,
    text = stub_text name (list_max ks) examples
    /\ length examples <= 3
    /\ (list_max ks = 0 -> examples = []).
Proof.
  intros Hks H. unfold stub in H. unfold bind at 1 in H. unfold lift at 1 in H.
  destruct (sorted_by_arity nodes) as [sorted| |] eqn:Es; try discriminate.
  unfold bind at 1 in H. unfold lift at 1 in H.
  destruct (py_last sorted) as [x| |] eqn:Ex; try discriminate.
  pose proof (longest_arity _ _ _ _ Hks Es Ex) as Hmax.
  unfold arity in Hmax. unfold attr, bind, lift, ret in H.
  destruct (getattr x "params") as [params| |]; try discriminate.
  simpl in Hmax.
  destruct (py_iter params) as [ps| |] eqn:Ep; try discriminate.
  rewrite (py_iter_len _ _ Ep) in Hmax, H.
  inversion Hmax as [Hlen]. rewrite Hlen in H.
  destruct (0 <? list_max ks) eqn:Epos.
  - destruct (mapM _ sorted st) as [[texts st1]| |]; try discriminate.
    injection H as Ht _. subst text. exists (firstn 3 (set_order texts)).
    split; [rewrite ?Hlen; reflexivity|]. split; [apply firstn_le_length|].
    intros Hz. apply Nat.ltb_lt in Epos. lia.
  - injection H as Ht _. subst text. exists [].
    split; [rewrite ?Hlen; reflexivity|]. split; [simpl; lia | reflexivity].
Qed.

Lemma stub_parameters_of_longest_call_witness :
  exists examples,
    ("def f(arg0, arg1):" ++ nl ++ "    # f(1)" ++ nl ++ "    # f(1, 2)" ++ nl
     ++ "    pass" ++ nl ++ nl)
    = stub_text "f" (list_max [2; 1]) examples
    /\ length examples <= 3
    /\ (list_max [2; 1] = 0 -> examples = []).
Proof.
  apply (stub_parameters_of_longest_call names_as_used no_options (fun l => l) 4
           "f" [call "f" [VInt 1; VInt 2]; call "f" [VInt 1]] [2; 1]
           initial
           {| called_functions :=
                [("f", [call "f" [VInt 1]; call "f" [VInt 1; VInt 2]])];
              loop_var_index := 1 |}).
  - repeat constructor.
  - vm_compute. reflexivity.
Defined.

(** ** The registry of calls *)

Lemma calls_of_record_call (name : string) (n : value)
  (reg : list (string * list value)) (other : string) :
  calls_of (record_call name n reg) other
  = if String.eqb other name then (calls_of reg name ++ [n])%list
    else calls_of reg other.
Proof.
  unfold calls_of.
  induction reg as [|[k ns] reg IH]; simpl.
  - rewrite (String.eqb_sym name other). destruct (String.eqb other name); reflexivity.
  - destruct (String.eqb_spec k name) as [Hk|Hk]; simpl.
    + subst k. rewrite (String.eqb_sym name other).
      destruct (String.eqb_spec other name) as [Ho|Ho]; [|reflexivity].
      reflexivity.
    + destruct (String.eqb_spec k other) as [Hko|Hko].
      * destruct (String.eqb_spec other name) as [Ho|Ho]; [congruence | reflexivity].
      * exact IH.
Qed.

Lemma record_call_keys (name : string) (n : value)
  (reg : list (string * list value)) (k : string) :
  In k (map fst (record_call name n reg)) <-> k = name \/ In k (map fst reg).
Proof.
  induction reg as [|[k' ns] reg IH]; simpl; [intuition congruence|].
  destruct (String.eqb_spec k' name) as [->|Hk]; simpl;
    [|rewrite IH]; intuition congruence.
Qed.

Lemma record_call_NoDup (name : string) (n : value)
  (reg : list (string * list value)) :
  NoDup (map fst reg) -> NoDup (map fst (record_call name n reg)).
Proof.
  induction reg as [|[k ns] reg IH]; simpl; intros H.
  - constructor; [intros [] | constructor].
  - inversion H as [|? ? Hk Hreg]; subst.
    destruct (String.eqb_spec k name) as [->|Hne]; simpl.
    + constructor; assumption.
    + constructor; [|exact (IH Hreg)].
      intros Hin. apply record_call_keys in Hin.
      destruct Hin as [->|Hin]; [exact (Hne eq_refl) | exact (Hk Hin)].
Qed.

(** X14. Recording a call (line 210) adds it behind the calls already
    recorded under the function's name, leaves the calls recorded under
    every other name and the loop counter as they are, and keeps the names
    of the registry distinct, so that the loop of line 257 meets each
    function once. *)
Theorem record_appends_call (name : string) (node : value) (st : state) :
  NoDup (map fst (called_functions st)) ->
  exists st',
    record (VStr name) node st = Ok (tt, st')
    /\ calls_of (called_functions st') name
       = (calls_of (called_functions st) name ++ [node])%list
    /\ (forall other, other <> name ->
          calls_of (called_functions st') other = calls_of (called_functions st) other)
    /\ NoDup (map fst (called_functions st'))
    /\ loop_var_index st' = loop_var_index st.
Proof.
  intros Hnd. eexists. split; [reflexivity|]. simpl.
  split; [|split; [|split; [exact (record_call_NoDup name node _ Hnd) | reflexivity]]].
  - rewrite calls_of_record_call, String.eqb_refl. reflexivity.
  - intros other Hne. rewrite calls_of_record_call.
    destruct (String.eqb_spec other name); [contradiction | reflexivity].
Qed.

Lemma record_appends_call_witness :
  exists st',
    record (VStr "f") (VInt 2)
      {| called_functions := [("g", [VInt 0]); ("f", [VInt 1])]; loop_var_index := 1 |}
    = Ok (tt, st')
    /\ calls_of (called_functions st') "f" = ([VInt 1] ++ [VInt 2])%list
    /\ (forall other, other <> "f" ->
          calls_of (called_functions st') other
          = calls_of [("g", [VInt 0]); ("f", [VInt 1])] other)
    /\ NoDup (map fst (called_functions st'))
    /\ loop_var_index st' = 1%Z.
Proof.
  apply (record_appends_call "f" (VInt 2)
           {| called_functions := [("g", [VInt 0]); ("f", [VInt 1])];
              loop_var_index := 1 |}).
  simpl. repeat constructor; simpl; intuition discriminate.
Defined.

(** ** Operators and constants *)




